(** * project3.py: aggregation, frequency analysis and export writers

    A shallow embedding of the processing functions and writers of
    [project3.py], followed by the properties established for them.

    Conventions of the embedding.
    - A Python [str] is a [string]; a character is its code point, and the
      256 values of [ascii] stand for the code points U+0000 to U+00FF.
      The character classes below ([isspace], [isdigit], [lower]) are the
      ones of Python's [str] methods on that range.
    - A Python [int] is a [Z].  A Python [float] is a binary64 value, kept
      as a mantissa and a binary exponent; only non-negative values arise.
    - A Python [dict] is an association list in insertion order; for a
      value that is a dict the keys are pairwise distinct ([dict_wf]).
    - A raised exception is a value of [exn]: functions that can raise
      return a [result]. *)

From Stdlib Require Import ZArith NArith List String Ascii Bool Lia.
From Stdlib Require Import Permutation Sorted.
Import ListNotations.

Local Open Scope string_scope.
Local Open Scope list_scope.
Local Open Scope Z_scope.

(* ================================================================== *)
(** ** Exceptions *)

Inductive exn : Type :=
| IndexError       (* rows[0] on an empty list *)
| ValueError       (* int(val) on a string that is not a decimal literal *)
| OverflowError    (* int / int too large for a float *)
| StatisticsError. (* mean of no data *)

Inductive result (A : Type) : Type :=
| Ok (a : A)
| Raise (e : exn).

Arguments Ok {A} a.
Arguments Raise {A} e.

Definition bind {A B : Type} (r : result A) (k : A -> result B) : result B :=
  match r with
  | Ok a => k a
  | Raise e => Raise e
  end.

Notation "x <- r ;; k" := (bind r (fun x => k))
  (at level 61, r at next level, right associativity).

(* ================================================================== *)
(** ** Python strings *)

Module PyStr.

Definition code (c : ascii) : Z := Z.of_N (N_of_ascii c).

Definition between (lo hi : Z) (c : ascii) : bool :=
  (lo <=? code c) && (code c <=? hi).

(** [str.isspace] on one character: TAB..CR, FS..US, SPACE, NEL, NBSP. *)
Definition isspace (c : ascii) : bool :=
  between 9 13 c || between 28 32 c || (code c =? 133) || (code c =? 160).

(** Decimal digits [0-9]: the characters [int] accepts as digits. *)
Definition isdecimal_char (c : ascii) : bool := between 48 57 c.

(** [str.isdigit] on one character: the decimal digits and the
    superscript digits U+00B2, U+00B3 and U+00B9. *)
Definition isdigit_char (c : ascii) : bool :=
  isdecimal_char c || (code c =? 178) || (code c =? 179) || (code c =? 185).

(** [str.lower] on one character: A-Z, and U+00C0..U+00DE but U+00D7. *)
Definition lower_char (c : ascii) : ascii :=
  if between 65 90 c || (between 192 222 c && negb (code c =? 215))
  then ascii_of_N (N_of_ascii c + 32)
  else c.

Fixpoint lower (s : string) : string :=
  match s with
  | EmptyString => EmptyString
  | String c s' => String (lower_char c) (lower s')
  end.

Fixpoint lstrip (s : string) : string :=
  match s with
  | EmptyString => EmptyString
  | String c s' => if isspace c then lstrip s' else s
  end.

Fixpoint rstrip (s : string) : string :=
  match s with
  | EmptyString => EmptyString
  | String c s' =>
      match rstrip s' with
      | EmptyString => if isspace c then EmptyString else String c EmptyString
      | r => String c r
      end
  end.

(** [s.strip()] *)
Definition strip (s : string) : string := rstrip (lstrip s).

Fixpoint forallb_str (p : ascii -> bool) (s : string) : bool :=
  match s with
  | EmptyString => true
  | String c s' => p c && forallb_str p s'
  end.

(** [s.isdigit()]: at least one character, all of them digits. *)
Definition isdigit (s : string) : bool :=
  match s with
  | EmptyString => false
  | _ => forallb_str isdigit_char s
  end.

(** The strings made of decimal digits only, at least one. *)
Definition isdecimal (s : string) : bool :=
  match s with
  | EmptyString => false
  | _ => forallb_str isdecimal_char s
  end.

Fixpoint digits_value (acc : Z) (s : string) : Z :=
  match s with
  | EmptyString => acc
  | String c s' => digits_value (10 * acc + (code c - 48)) s'
  end.

(** [int(s)] for a string [s] on which [isdigit] holds (the only use in
    the program): the value of the literal when every digit is a decimal
    digit, [ValueError] otherwise.  The interpreter's configurable limit on
    the length of a literal is left out. *)
Definition int (s : string) : result Z :=
  if isdecimal s then Ok (digits_value 0 s) else Raise ValueError.

End PyStr.

(* ================================================================== *)
(** ** Python numbers: [int / int], [statistics.mean], [round(x, 2)] *)

Module PyNum.

(** A non-negative binary64 value [mant * 2 ^ expo], in the form the
    format stores it: [2^52 <= mant < 2^53] for a normal number,
    [expo = -1074] for a subnormal one and for zero. *)
Record float : Type := mkFloat { mant : Z; expo : Z }.

Definition float_zero : float := mkFloat 0 (-1074).

(** What [statistics.mean] of ints, and [round] of it, evaluate to. *)
Inductive pynum : Type :=
| PyInt (z : Z)
| PyFloat (f : float).

(** The integer nearest to [a / b], a tie going to the even one. *)
Definition div_half_even (a b : Z) : Z :=
  let q := a / b in
  let r := a mod b in
  if 2 * r <? b then q
  else if b <? 2 * r then q + 1
  else if Z.even q then q else q + 1.

(** The integer nearest to [(a / b) / 2 ^ s]. *)
Definition div_pow2_half_even (a b s : Z) : Z :=
  if 0 <=? s then div_half_even a (b * 2 ^ s)
  else div_half_even (a * 2 ^ (- s)) b.

(** [floor (log2 (a / b))] for [0 < a] and [0 < b]. *)
Definition ratio_log2 (a b : Z) : Z :=
  let d := Z.log2 a - Z.log2 b in
  if b * 2 ^ (Z.max 0 d) <=? a * 2 ^ (Z.max 0 (- d)) then d else d - 1.

(** The binary64 value nearest to [a / b] (ties to even), for [0 <= a]
    and [0 < b]; [None] when it is beyond the largest finite value.
    This is Python's [a / b] on ints, and the conversion of a decimal
    literal [a / b] to a float. *)
Definition float_of_ratio (a b : Z) : option float :=
  if a =? 0 then Some float_zero
  else
    let s := Z.max (ratio_log2 a b - 52) (-1074) in
    let m := div_pow2_half_even a b s in
    let f := if m =? 2 ^ 53 then mkFloat (2 ^ 52) (s + 1) else mkFloat m s in
    if 971 <? expo f then None else Some f.

Definition sum (vals : list Z) : Z := fold_left Z.add vals 0.

Definition len {A : Type} (l : list A) : Z := Z.of_nat (List.length l).

(** The mean of ints of sum [total], [n > 0] of them: an [int] when the
    division is exact, otherwise the float nearest to the quotient. *)
Definition quotient (total n : Z) : result pynum :=
  if total mod n =? 0 then Ok (PyInt (total / n))
  else match float_of_ratio total n with
       | Some f => Ok (PyFloat f)
       | None => Raise OverflowError
       end.

(** [statistics.mean(vals)] *)
Definition mean (vals : list Z) : result pynum :=
  match vals with
  | [] => Raise StatisticsError
  | _ => quotient (sum vals) (len vals)
  end.

(** The number of hundredths nearest to a float (ties to even). *)
Definition hundredths (f : float) : Z :=
  div_pow2_half_even (100 * mant f) 1 (- expo f).

(** [round(x, 2)]: an int is returned as it is; a float is rounded to
    the nearest multiple of 1/100 and that decimal is read back as a
    float. *)
Definition round2 (x : pynum) : result pynum :=
  match x with
  | PyInt z => Ok (PyInt z)
  | PyFloat f =>
      match float_of_ratio (hundredths f) 100 with
      | Some g => Ok (PyFloat g)
      | None => Raise OverflowError
      end
  end.

End PyNum.

Import PyNum.

(* ================================================================== *)
(** ** Dictionaries *)

Section Dict.
Context {K V : Type}.
Variable eqb : K -> K -> bool.

Definition dict_keys (d : list (K * V)) : list K := map fst d.

Definition dict_wf (d : list (K * V)) : Prop := NoDup (dict_keys d).

Fixpoint dict_lookup (d : list (K * V)) (k : K) : option V :=
  match d with
  | [] => None
  | (k', v) :: d' => if eqb k' k then Some v else dict_lookup d' k
  end.

(** [d.get(k, default)] *)
Definition dict_get (d : list (K * V)) (k : K) (default : V) : V :=
  match dict_lookup d k with
  | Some v => v
  | None => default
  end.

(** [d[k] = f(d[k])] when [k] is a key, [d[k] = v0] as a new last key
    otherwise. *)
Fixpoint dict_upsert (f : V -> V) (v0 : V) (d : list (K * V)) (k : K)
  : list (K * V) :=
  match d with
  | [] => [(k, v0)]
  | (k', v) :: d' =>
      if eqb k' k then (k', f v) :: d'
      else (k', v) :: dict_upsert f v0 d' k
  end.
End Dict.

(** A mapping with [str] keys. *)
Definition sdict (V : Type) : Type := list (string * V).

(* ================================================================== *)
(** ** The tabular aggregator: [process_airtravel] *)

(** A row as [csv.DictReader] yields it, with str keys and str values. *)
Definition TableRow : Type := sdict string.

(** One value of the summary: the dict with the keys [months_counted],
    [total_passengers] and [avg_per_month]. *)
Record stats : Type := mkStats {
  months_counted : Z;
  total_passengers : Z;
  avg_per_month : pynum
}.

Definition YearlySummary : Type := sdict stats.

(** [[y for y in row0.keys() if y.lower() != "month"]] *)
Definition numeric_columns (row0 : TableRow) : list string :=
  filter (fun y => negb (String.eqb (PyStr.lower y) "month")) (dict_keys row0).

(** [row.get(y, default).strip()] with the empty string as default *)
Definition cell_text (row : TableRow) (y : string) : string :=
  PyStr.strip (dict_get String.eqb row y EmptyString).

(** [per_year_values[y].append(n)] on a [defaultdict(list)]. *)
Definition append_value (per : sdict (list Z)) (y : string) (n : Z)
  : sdict (list Z) :=
  dict_upsert String.eqb (fun vals => vals ++ [n]) [n] per y.

(** The inner loop: [for y in years: ...] for one row. *)
Fixpoint collect_row (row : TableRow) (years : list string)
    (per : sdict (list Z)) : result (sdict (list Z)) :=
  match years with
  | [] => Ok per
  | y :: years' =>
      let val := cell_text row y in
      if PyStr.isdigit val then
        n <- PyStr.int val ;;
        collect_row row years' (append_value per y n)
      else collect_row row years' per
  end.

(** The outer loop: [for row in rows: ...]. *)
Fixpoint collect_rows (rows : list TableRow) (years : list string)
    (per : sdict (list Z)) : result (sdict (list Z)) :=
  match rows with
  | [] => Ok per
  | row :: rows' =>
      per' <- collect_row row years per ;;
      collect_rows rows' years per'
  end.

(** The dict built for one column; the [else 0.0] branch is the one for an
    empty list. *)
Definition summarize (vals : list Z) : result stats :=
  avg <- match vals with
         | [] => Ok (PyFloat float_zero)
         | _ => m <- mean vals ;; round2 m
         end ;;
  Ok (mkStats (len vals) (sum vals) avg).

(** [for y, vals in per_year_values.items(): summary[y] = ...] *)
Fixpoint summarize_all (per : sdict (list Z)) : result YearlySummary :=
  match per with
  | [] => Ok []
  | (y, vals) :: per' =>
      s <- summarize vals ;;
      rest <- summarize_all per' ;;
      Ok ((y, s) :: rest)
  end.

Definition process_airtravel (rows : list TableRow) : result YearlySummary :=
  match rows with
  | [] => Raise IndexError
  | row0 :: _ =>
      let years := numeric_columns row0 in
      per <- collect_rows rows years [] ;;
      summarize_all per
  end.

(* ================================================================== *)
(** ** [sorted], [Counter] and [most_common] *)

Section Sorted.
Context {A : Type}.
(** [le a b]: [b] does not compare below [a], so [a] stays in front. *)
Variable le : A -> A -> bool.

Fixpoint insert (x : A) (l : list A) : list A :=
  match l with
  | [] => [x]
  | y :: l' => if le x y then x :: l else y :: insert x l'
  end.

(** Python's [sorted]: a stable sort, elements that compare equal keep
    their order. *)
Definition sorted (l : list A) : list A := fold_right insert [] l.
End Sorted.

Section Counter.
Context {K : Type}.
Variable eqb : K -> K -> bool.

(** [c[k] += 1], a missing key counting as 0. *)
Definition counter_add (c : list (K * Z)) (k : K) : list (K * Z) :=
  dict_upsert eqb (fun n => n + 1) 1 c k.

(** [Counter(l)]: the elements are counted from left to right, so the
    keys are in the order of their first occurrence. *)
Definition Counter (l : list K) : list (K * Z) :=
  fold_left counter_add l [].

(** [sorted(c.items(), key=itemgetter(1), reverse=True)] *)
Definition by_count_desc (c : list (K * Z)) : list (K * Z) :=
  sorted (fun a b => snd b <=? snd a) c.

(** [c.most_common(n)], that is [heapq.nlargest(n, c.items(), key=...)]:
    the first [n] items of the stable descending sort. *)
Definition most_common (n : nat) (c : list (K * Z)) : list (K * Z) :=
  firstn n (by_count_desc c).
End Counter.

(* ================================================================== *)
(** ** Tokenization: [re.findall(r"[a-zA-Z']+", text.lower())] *)

(** The character class [[a-zA-Z']]. *)
Definition is_word_char (c : ascii) : bool :=
  PyStr.between 97 122 c || PyStr.between 65 90 c || (PyStr.code c =? 39).

Definition emit (cur : string) : list string :=
  match cur with
  | EmptyString => []
  | _ => [cur]
  end.

(** The maximal runs of word characters, from left to right; [cur] is the
    run being read. *)
Fixpoint findall_words (cur : string) (s : string) : list string :=
  match s with
  | EmptyString => emit cur
  | String c s' =>
      if is_word_char c
      then findall_words (String.append cur (String c EmptyString)) s'
      else emit cur ++ findall_words EmptyString s'
  end.

Definition tokenize (text : string) : list string :=
  findall_words EmptyString (PyStr.lower text).

Definition str_len (s : string) : Z := Z.of_nat (String.length s).

(* ================================================================== *)
(** ** The posts analyzer: [process_posts] *)

(** A post as the analyzer reads it: [userId] is what [p.get("userId")]
    returns ([None] for a missing key or a null), [title] and [body] are
    [None] when the key is missing. *)
Record Post : Type := mkPost {
  userId : option Z;
  title : option string;
  body : option string
}.

(** [p.get(key, default)] on a field holding a str. *)
Definition get_field (field : option string) (default : string) : string :=
  match field with
  | Some s => s
  | None => default
  end.

Definition userId_eqb (a b : option Z) : bool :=
  match a, b with
  | Some x, Some y => x =? y
  | None, None => true
  | _, _ => false
  end.

Record TopWord : Type := mkTopWord { word : string; count : Z }.

Record PostsSummary : Type := mkPostsSummary {
  post_count : Z;
  posts_per_user : list (option Z * Z);
  top_words : list TopWord
}.

(** [title + " " + body], each read with [p.get] and the empty string as
    default *)
Definition post_text (p : Post) : string :=
  String.append (get_field (title p) EmptyString)
    (String.append " " (get_field (body p) EmptyString)).

(** [" ".join([... for p in posts])] *)
Definition all_text (posts : list Post) : string :=
  String.concat " " (map post_text posts).

(** [[w for w in tokenize(all_text) if len(w) > 3]] *)
Definition posts_words (posts : list Post) : list string :=
  filter (fun w => 3 <? str_len w) (tokenize (all_text posts)).

Definition process_posts (posts : list Post) : PostsSummary :=
  let per_user := Counter userId_eqb (map userId posts) in
  let top := most_common 15 (Counter String.eqb (posts_words posts)) in
  mkPostsSummary (len posts) per_user
    (map (fun wc => mkTopWord (fst wc) (snd wc)) top).

(* ================================================================== *)
(** ** The text metrics analyzer: [process_text_report] *)

Record TextMetrics : Type := mkTextMetrics {
  characters : Z;
  word_count : Z;
  text_top_words : list (string * Z)
}.

Definition process_text_report (text : string) : TextMetrics :=
  let words := tokenize text in
  mkTextMetrics (str_len text) (len words)
    (most_common 20
       (Counter String.eqb (filter (fun w => 4 <? str_len w) words))).

(* ================================================================== *)
(** ** Writers of the tabular summary *)

(** A value handed to a table or sheet writer. *)
Inductive cell : Type :=
| CStr (s : string)
| CNum (x : pynum).

(** [stats.items()] *)
Definition stats_items (st : stats) : sdict cell :=
  [ ("months_counted", CNum (PyInt (months_counted st)));
    ("total_passengers", CNum (PyInt (total_passengers st)));
    ("avg_per_month", CNum (avg_per_month st)) ].

(** [{"year": year, **stats}] *)
Definition year_row (year : string) (st : stats) : sdict cell :=
  ("year", CStr year) :: stats_items st.

(** [csv.DictWriter.writerow]: the values of the row dict in the order of
    the field names, a missing one as the empty string. *)
Definition DictWriter_record (fieldnames : list string) (rowdict : sdict cell)
  : list cell :=
  map (fun k => dict_get String.eqb rowdict k (CStr EmptyString)) fieldnames.

Definition csv_fieldnames : list string :=
  ["year"; "months_counted"; "total_passengers"; "avg_per_month"].

(** The records written to the file, in order: the header, then one per
    item of the summary. *)
Definition write_csv_yearly_totals (summary : YearlySummary) : list (list cell) :=
  map CStr csv_fieldnames
  :: map (fun item => DictWriter_record csv_fieldnames
                        (year_row (fst item) (snd item))) summary.

Record sheet : Type := mkSheet {
  sheet_title : string;
  sheet_rows : list (list cell)
}.

(** [sorted(summary.items())]: items are compared as tuples, and as the
    years of a dict are distinct the comparison is the one of the years. *)
Definition items_by_year (summary : YearlySummary) : YearlySummary :=
  sorted (fun a b => String.leb (fst a) (fst b)) summary.

(** [sorted(summary.items(), key=lambda kv: kv[1]["total_passengers"],
    reverse=True)] *)
Definition items_by_total_desc (summary : YearlySummary) : YearlySummary :=
  sorted (fun a b => total_passengers (snd b) <=? total_passengers (snd a))
    summary.

Definition summary_sheet_row (item : string * stats) : list cell :=
  [ CStr (fst item);
    CNum (PyInt (months_counted (snd item)));
    CNum (PyInt (total_passengers (snd item)));
    CNum (avg_per_month (snd item)) ].

Definition ranking_sheet_row (item : string * stats) : list cell :=
  [ CStr (fst item); CNum (PyInt (total_passengers (snd item))) ].

(** The sheets of the saved workbook, in order. *)
Definition write_excel (summary : YearlySummary) : list sheet :=
  [ mkSheet "AirTravel Summary"
      (map CStr ["Year"; "Months Counted"; "Total Passengers"; "Avg Per Month"]
       :: map summary_sheet_row (items_by_year summary));
    mkSheet "Totals Ranking"
      (map CStr ["Year"; "Total Passengers"]
       :: map ranking_sheet_row (items_by_total_desc summary)) ].

(* ================================================================== *)
(** ** The JSON writer: [write_json], and reading the file back *)

Module Json.

(** The Python values the writer is given: [None], ints, strs, lists and
    dicts whose keys are [None], ints or strs. *)
Inductive key : Type :=
| KNone
| KInt (z : Z)
| KStr (s : string).

#[local] Unset Elimination Schemes.
Inductive value : Type :=
| VNone
| VInt (z : Z)
| VStr (s : string)
| VList (l : list value)
| VDict (d : list (key * value)).
#[local] Set Elimination Schemes.

Definition quote : ascii := "034"%char.
Definition backslash : ascii := "092"%char.
Definition newline : ascii := "010"%char.

Definition digit_char (n : Z) : ascii := ascii_of_N (Z.to_N (48 + n)).

(** The decimal digits of [n >= 0]; [fuel] bounds their number. *)
Fixpoint decimal (fuel : nat) (n : Z) : string :=
  match fuel with
  | O => EmptyString
  | S fuel' =>
      if n <? 10 then String (digit_char n) EmptyString
      else String.append (decimal fuel' (n / 10))
             (String (digit_char (n mod 10)) EmptyString)
  end.

(** [repr(z)] of an int. *)
Definition repr_int (z : Z) : string :=
  if z <? 0 then String "-" (decimal (S (Z.to_nat (Z.log2 (- z)))) (- z))
  else decimal (S (Z.to_nat (Z.log2 z))) z.

Definition hex_char (n : Z) : ascii :=
  if n <? 10 then digit_char n else ascii_of_N (Z.to_N (87 + n)).

(** One character of a string literal, with [ensure_ascii]. *)
Definition escape_char (c : ascii) : string :=
  if (c =? quote)%char then String backslash (String quote EmptyString)
  else if (c =? backslash)%char then String backslash (String backslash EmptyString)
  else if PyStr.between 32 126 c then String c EmptyString
  else if PyStr.code c =? 8 then String backslash "b"
  else if PyStr.code c =? 9 then String backslash "t"
  else if PyStr.code c =? 10 then String backslash "n"
  else if PyStr.code c =? 12 then String backslash "f"
  else if PyStr.code c =? 13 then String backslash "r"
  else String backslash
         (String "u" (String "0" (String "0"
            (String (hex_char (PyStr.code c / 16))
               (String (hex_char (PyStr.code c mod 16)) EmptyString))))).

Fixpoint escape (s : string) : string :=
  match s with
  | EmptyString => EmptyString
  | String c s' => String.append (escape_char c) (escape s')
  end.

Definition encode_str (s : string) : string :=
  String quote (String.append (escape s) (String quote EmptyString)).

(** The key of a dict item as the encoder writes it. *)
Definition key_name (k : key) : string :=
  match k with
  | KNone => "null"
  | KInt z => repr_int z
  | KStr s => s
  end.

Fixpoint spaces (n : nat) : string :=
  match n with
  | O => EmptyString
  | S n' => String " " (spaces n')
  end.

(** A line break and the indentation of nesting level [lvl]. *)
Definition newline_indent (lvl : nat) : string :=
  String newline (spaces (2 * lvl)).

Definition item_separator (lvl : nat) : string :=
  String "," (newline_indent lvl).

(** [json.dumps(v, indent=2)], at nesting level [lvl]. *)
Fixpoint encode (lvl : nat) (v : value) : string :=
  match v with
  | VNone => "null"
  | VInt z => repr_int z
  | VStr s => encode_str s
  | VList [] => "[]"
  | VList l =>
      String "["
        (String.append (newline_indent (S lvl))
           (String.append
              (String.concat (item_separator (S lvl)) (map (encode (S lvl)) l))
              (String.append (newline_indent lvl) "]")))
  | VDict [] => "{}"
  | VDict d =>
      String "{"
        (String.append (newline_indent (S lvl))
           (String.append
              (String.concat (item_separator (S lvl))
                 (map (fun kv =>
                         match kv with
                         | (k, x) =>
                             String.append (encode_str (key_name k))
                               (String.append ": " (encode (S lvl) x))
                         end) d))
              (String.append (newline_indent lvl) "}")))
  end.

Definition dumps (v : value) : string := encode 0 v.

(** *** Decoding *)

Definition is_ws (c : ascii) : bool :=
  (c =? " ")%char || (c =? "009")%char || (c =? "010")%char || (c =? "013")%char.

Fixpoint skip_ws (s : string) : string :=
  match s with
  | String c s' => if is_ws c then skip_ws s' else s
  | EmptyString => EmptyString
  end.

Definition hex_value (c : ascii) : option Z :=
  if PyStr.between 48 57 c then Some (PyStr.code c - 48)
  else if PyStr.between 97 102 c then Some (PyStr.code c - 87)
  else if PyStr.between 65 70 c then Some (PyStr.code c - 55)
  else None.

(** The character a [\uXXXX] escape stands for; [None] also for a code
    point above U+00FF. *)
Definition unicode_escape (h1 h2 h3 h4 : ascii) : option ascii :=
  match hex_value h1, hex_value h2, hex_value h3, hex_value h4 with
  | Some a, Some b, Some c, Some d =>
      if (a =? 0) && (b =? 0) then Some (ascii_of_N (Z.to_N (16 * c + d)))
      else None
  | _, _, _, _ => None
  end.

Definition simple_escape (e : ascii) : option ascii :=
  if (e =? quote)%char then Some quote
  else if (e =? backslash)%char then Some backslash
  else if (e =? "/")%char then Some "/"%char
  else if (e =? "b")%char then Some "008"%char
  else if (e =? "f")%char then Some "012"%char
  else if (e =? "n")%char then Some "010"%char
  else if (e =? "r")%char then Some "013"%char
  else if (e =? "t")%char then Some "009"%char
  else None.

(** A string literal from just after its opening quote: the string and
    what follows the closing quote. *)
Fixpoint scanstring (s : string) : option (string * string) :=
  match s with
  | EmptyString => None
  | String c s' =>
      if (c =? quote)%char then Some (EmptyString, s')
      else if (c =? backslash)%char then
        match s' with
        | String "u" (String h1 (String h2 (String h3 (String h4 s'')))) =>
            match unicode_escape h1 h2 h3 h4, scanstring s'' with
            | Some x, Some (str, rest) => Some (String x str, rest)
            | _, _ => None
            end
        | String e s'' =>
            match simple_escape e, scanstring s'' with
            | Some x, Some (str, rest) => Some (String x str, rest)
            | _, _ => None
            end
        | EmptyString => None
        end
      else if PyStr.code c <? 32 then None
      else
        match scanstring s' with
        | Some (str, rest) => Some (String c str, rest)
        | None => None
        end
  end.

(** The longest prefix of decimal digits, and the rest. *)
Fixpoint span_digits (s : string) : string * string :=
  match s with
  | String c s' =>
      if PyStr.isdecimal_char c
      then let (ds, rest) := span_digits s' in (String c ds, rest)
      else (EmptyString, s)
  | EmptyString => (EmptyString, EmptyString)
  end.

Definition starts_fraction (s : string) : bool :=
  match s with
  | String c _ => (c =? ".")%char || (c =? "e")%char || (c =? "E")%char
  | EmptyString => false
  end.

(** An integer literal: an optional minus sign, then a single 0 or a
    run of digits that does not start with 0; [None] when it is
    continued as a float. *)
Definition scan_int (s : string) : option (Z * string) :=
  let (neg, body) :=
    match s with
    | String c r => if (c =? "-")%char then (true, r) else (false, s)
    | EmptyString => (false, s)
    end in
  let (ds, rest) :=
    match body with
    | String c r => if (c =? "0")%char then ("0", r) else span_digits body
    | EmptyString => (EmptyString, EmptyString)
    end in
  match ds with
  | EmptyString => None
  | _ =>
      if starts_fraction rest then None
      else Some (if neg then - PyStr.digits_value 0 ds
                 else PyStr.digits_value 0 ds, rest)
  end.

Definition key_eqb (a b : key) : bool :=
  match a, b with
  | KNone, KNone => true
  | KInt x, KInt y => x =? y
  | KStr s, KStr t => String.eqb s t
  | _, _ => false
  end.

(** [d[k] = v] *)
Definition dict_set (d : list (key * value)) (k : key) (v : value)
  : list (key * value) :=
  dict_upsert key_eqb (fun _ => v) v d k.

(** [dict(pairs)] *)
Definition dict_of_pairs (pairs : list (string * value)) : list (key * value) :=
  fold_left (fun d kv => dict_set d (KStr (fst kv)) (snd kv)) pairs [].

(** The decoder, by recursive descent; [fuel] bounds the number of nested
    calls.  [None] stands for a decoding error, and for a document with a
    float, [true] or [false], which are not values of [value]. *)
Fixpoint scan_once (fuel : nat) (s : string) : option (value * string) :=
  match fuel with
  | O => None
  | S fuel' =>
      match s with
      | EmptyString => None
      | String c r =>
          if (c =? quote)%char then
            match scanstring r with
            | Some (str, rest) => Some (VStr str, rest)
            | None => None
            end
          else if (c =? "{")%char then
            match skip_ws r with
            | EmptyString => None
            | String q r' =>
                if (q =? "}")%char then Some (VDict [], r')
                else if (q =? quote)%char then
                  match scan_members fuel' r' with
                  | Some (pairs, rest) => Some (VDict (dict_of_pairs pairs), rest)
                  | None => None
                  end
                else None
            end
          else if (c =? "[")%char then
            match skip_ws r with
            | EmptyString => None
            | String c' rest as r' =>
                if (c' =? "]")%char then Some (VList [], rest)
                else
                  match scan_elements fuel' r' with
                  | Some (l, rest') => Some (VList l, rest')
                  | None => None
                  end
            end
          else if (c =? "n")%char then
            match r with
            | String "u" (String "l" (String "l" rest)) => Some (VNone, rest)
            | _ => None
            end
          else
            match scan_int s with
            | Some (z, rest) => Some (VInt z, rest)
            | None => None
            end
      end
  end

(** The members of an object, from just after the opening quote of a
    key up to the closing brace. *)
with scan_members (fuel : nat) (s : string)
  : option (list (string * value) * string) :=
  match fuel with
  | O => None
  | S fuel' =>
      match scanstring s with
      | None => None
      | Some (k, r1) =>
          match skip_ws r1 with
          | String ":" r2 =>
              match scan_once fuel' (skip_ws r2) with
              | None => None
              | Some (v, r3) =>
                  match skip_ws r3 with
                  | String "}" rest => Some ([(k, v)], rest)
                  | String "," r4 =>
                      match skip_ws r4 with
                      | String q r5 =>
                          if (q =? quote)%char then
                            match scan_members fuel' r5 with
                            | Some (pairs, rest) => Some ((k, v) :: pairs, rest)
                            | None => None
                            end
                          else None
                      | EmptyString => None
                      end
                  | _ => None
                  end
              end
          | _ => None
          end
      end
  end

(** The elements of an array, from the first one up to the closing
    bracket. *)
with scan_elements (fuel : nat) (s : string)
  : option (list value * string) :=
  match fuel with
  | O => None
  | S fuel' =>
      match scan_once fuel' s with
      | None => None
      | Some (v, r1) =>
          match skip_ws r1 with
          | String "]" rest => Some ([v], rest)
          | String "," r2 =>
              match scan_elements fuel' (skip_ws r2) with
              | Some (l, rest) => Some (v :: l, rest)
              | None => None
              end
          | _ => None
          end
      end
  end.

(** [json.loads(s)]: one value, with white space around it only. *)
Definition loads (s : string) : option value :=
  match scan_once (S (String.length s)) (skip_ws s) with
  | Some (v, rest) =>
      match skip_ws rest with
      | EmptyString => Some v
      | _ => None
      end
  | None => None
  end.

(** What a value is read back as: the keys of its dicts are strs. *)
Fixpoint image (v : value) : value :=
  match v with
  | VList l => VList (map image l)
  | VDict d =>
      VDict (map (fun kv => match kv with
                            | (k, x) => (KStr (key_name k), image x)
                            end) d)
  | _ => v
  end.

(** Python's [==] on these values: lists are compared in order, dicts
    regardless of the order of their items. *)
Fixpoint py_eq (a b : value) : bool :=
  match a, b with
  | VNone, VNone => true
  | VInt x, VInt y => x =? y
  | VStr s, VStr t => String.eqb s t
  | VList la, VList lb =>
      (fix all2 (la lb : list value) : bool :=
         match la, lb with
         | [], [] => true
         | x :: la', y :: lb' => py_eq x y && all2 la' lb'
         | _, _ => false
         end) la lb
  | VDict da, VDict db =>
      (List.length da =? List.length db)%nat
      && (fix all (da : list (key * value)) : bool :=
            match da with
            | [] => true
            | (k, x) :: da' =>
                match dict_lookup key_eqb db k with
                | Some y => py_eq x y
                | None => false
                end && all da'
            end) da
  | _, _ => false
  end.

End Json.

Import Json.

(** The dict that [process_posts] returns, as a Python value. *)
Definition userId_key (u : option Z) : key :=
  match u with
  | Some z => KInt z
  | None => KNone
  end.

Definition summary_value (s : PostsSummary) : value :=
  VDict
    [ (KStr "post_count", VInt (post_count s));
      (KStr "posts_per_user",
        VDict (map (fun uc => (userId_key (fst uc), VInt (snd uc)))
                 (posts_per_user s)));
      (KStr "top_words",
        VList (map (fun tw => VDict [ (KStr "word", VStr (word tw));
                                      (KStr "count", VInt (count tw)) ])
                 (top_words s))) ].

(** The text written to the file: [json.dump(data, f, indent=2)]. *)
Definition write_json (data : value) : string := dumps data.

(* ================================================================== *)
(** ** The text report writer: [write_text_report] *)

(** [c * n] for a one-character str [c]. *)
Fixpoint str_repeat (c : ascii) (n : nat) : string :=
  match n with
  | O => EmptyString
  | S n' => String c (str_repeat c n')
  end.

(** The format [{s:<width}]: [s] followed by the spaces that bring it to
    [width] characters, none when it is longer. *)
Definition ljust (width : nat) (s : string) : string :=
  String.append s (str_repeat " " (width - String.length s)).

(** The line of one top word: [f"  {w:<20} {c}"]. *)
Definition top_word_line (wc : string * Z) : string :=
  String.append "  "
    (String.append (ljust 20 (fst wc)) (String.append " " (repr_int (snd wc)))).

(** The list [lines] of the writer.  [now] stands for the text of
    [datetime.now().isoformat(timespec='seconds')], which the clock
    decides. *)
Definition report_lines (metrics : TextMetrics) (source_name now : string)
  : list string :=
  [ String.append "Text Report for: " source_name;
    String.append "Generated: " now;
    str_repeat "-" 60;
    String.append "Characters: " (repr_int (characters metrics));
    String.append "Word Count: " (repr_int (word_count metrics));
    EmptyString;
    "Top Words (min length 5):" ]
  ++ map top_word_line (text_top_words metrics).

(** The text written to the file: the lines joined by line breaks. *)
Definition write_text_report (metrics : TextMetrics) (source_name now : string)
  : string :=
  String.concat (String newline EmptyString) (report_lines metrics source_name now).

(* ================================================================== *)
(** ** Vocabulary of the statements *)

(** The rows whose trimmed value in column [y] passes [isdigit]. *)
Definition digit_rows (rows : list TableRow) (y : string) : list TableRow :=
  filter (fun row => PyStr.isdigit (cell_text row y)) rows.

(** The rows whose trimmed value in column [y] consists solely of decimal
    digits. *)
Definition decimal_rows (rows : list TableRow) (y : string) : list TableRow :=
  filter (fun row => PyStr.isdecimal (cell_text row y)) rows.

(** The integers those values denote, row after row. *)
Definition column_values (rows : list TableRow) (y : string) : list Z :=
  map (fun row => PyStr.digits_value 0 (cell_text row y)) (digit_rows rows y).

Definition decimal_values (rows : list TableRow) (y : string) : list Z :=
  map (fun row => PyStr.digits_value 0 (cell_text row y)) (decimal_rows rows y).

(** The value list a [defaultdict(list)] gives for a key. *)
Definition vals_of (per : sdict (list Z)) (y : string) : list Z :=
  match dict_lookup String.eqb per y with
  | Some vals => vals
  | None => []
  end.

(** Characters a JSON string literal holds as they are. *)
Definition plain_char (c : ascii) : bool :=
  PyStr.between 32 126 c && negb (c =? quote)%char && negb (c =? backslash)%char.

Definition plain (s : string) : bool := PyStr.forallb_str plain_char s.

(** The values whose strs and keys are written without escapes and whose
    dicts have keys with pairwise distinct names. *)
Fixpoint plain_value (v : value) : Prop :=
  match v with
  | VStr s => plain s = true
  | VList l => fold_right (fun x acc => plain_value x /\ acc) True l
  | VDict d =>
      NoDup (map (fun kv => key_name (fst kv)) d)
      /\ fold_right (fun kv acc =>
                       match kv with
                       | (k, x) => plain (key_name k) = true /\ plain_value x /\ acc
                       end) True d
  | _ => True
  end.

(** The number of nested calls the decoder makes for a value. *)
Fixpoint calls (v : value) : nat :=
  match v with
  | VList l => S (fold_right (fun x acc => S (calls x + acc)) O l)
  | VDict d =>
      S (fold_right (fun kv acc =>
                       match kv with
                       | (_, x) => S (calls x + acc)
                       end) O d)
  | _ => 1%nat
  end.

(** What may follow a value in the writer's output: the end of the text,
    a comma or a line break. *)
Definition delimited (rest : string) : bool :=
  match rest with
  | EmptyString => true
  | String c _ => (c =? ",")%char || (c =? newline)%char
  end.

(** The first characters of the text of a value. *)
Definition value_start (c : ascii) : bool :=
  (c =? quote)%char || (c =? "{")%char || (c =? "[")%char || (c =? "n")%char
  || (c =? "-")%char || PyStr.isdecimal_char c.

(** The text of one item of a dict, as [encode] writes it. *)
Definition encode_item (lvl : nat) (kv : key * value) : string :=
  String.append (encode_str (key_name (fst kv)))
    (String.append ": " (encode lvl (snd kv))).

(** The pair a dict item is decoded to. *)
Definition image_pair (kv : key * value) : string * value :=
  (key_name (fst kv), image (snd kv)).

(** The round trip at a given bound on the nested calls. *)
Definition decodes_back (fuel : nat) : Prop :=
  forall v lvl rest,
    plain_value v -> (calls v <= fuel)%nat -> delimited rest = true ->
    scan_once fuel (String.append (encode lvl v) rest) = Some (image v, rest).

(** [a] occurs in [l] somewhere before [b]. *)
Definition precedes {A : Type} (l : list A) (a b : A) : Prop :=
  exists l1 l2 l3, l = l1 ++ a :: l2 ++ b :: l3.

(** The position of the first occurrence of [w] in [l], the length of [l]
    when there is none. *)
Fixpoint first_index (w : string) (l : list string) : nat :=
  match l with
  | [] => O
  | x :: l' => if String.eqb x w then O else S (first_index w l')
  end.

(** A top-word list for a token stream: at most [cap] entries, no word
    twice, counts in descending order, and among equal counts the word
    met first in the stream comes first. *)
Definition ranked (cap : nat) (stream : list string) (top : list (string * Z))
  : Prop :=
  (List.length top <= cap)%nat
  /\ NoDup (map fst top)
  /\ StronglySorted (fun a b => snd b <= snd a) top
  /\ forall i j a b,
       (i < j)%nat ->
       nth_error top i = Some a -> nth_error top j = Some b ->
       snd a = snd b ->
       (first_index (fst a) stream < first_index (fst b) stream)%nat.

(** A post with the missing [title] and [body] replaced by the empty
    string. *)
Definition fill_missing (p : Post) : Post :=
  mkPost (userId p)
    (Some (get_field (title p) EmptyString))
    (Some (get_field (body p) EmptyString)).

(** The number of elements of [l] equal to [k]. *)
Definition occurrences {K : Type} (eqb : K -> K -> bool) (k : K) (l : list K) : Z :=
  len (filter (eqb k) l).

(** The characters of a token: lower-case letters and the apostrophe. *)
Definition is_token_char (c : ascii) : bool :=
  PyStr.between 97 122 c || (PyStr.code c =? 39).

(** The words of one post: those of its title, then those of its body. *)
Definition post_tokens (p : Post) : list string :=
  tokenize (get_field (title p) EmptyString)
  ++ tokenize (get_field (body p) EmptyString).


(** Two rows that hold the same text in each of the given columns. *)
Definition same_cells (years : list string) (r r' : TableRow) : Prop :=
  forall y, In y years -> cell_text r y = cell_text r' y.

(** [s.split(sep)] for a one-character separator. *)
Fixpoint split_on (sep : ascii) (s : string) : list string :=
  match s with
  | EmptyString => [EmptyString]
  | String c s' =>
      if (c =? sep)%char then EmptyString :: split_on sep s'
      else match split_on sep s' with
           | [] => [String c EmptyString]
           | w :: ws => String c w :: ws
           end
  end.

(** The strs without a line break. *)
Definition one_line (s : string) : bool :=
  PyStr.forallb_str (fun c => negb (c =? newline)%char) s.

(** The values all of whose dict keys are strs. *)
Fixpoint str_keys (v : value) : Prop :=
  match v with
  | VList l => fold_right (fun x acc => str_keys x /\ acc) True l
  | VDict d =>
      fold_right (fun kv acc =>
                    match kv with
                    | (KStr _, x) => str_keys x /\ acc
                    | (_, _) => False
                    end) True d
  | _ => True
  end.

(** The first cell of every row but the header. *)
Definition first_column (rows : list (list cell)) : list cell :=
  map (fun r => hd (CStr EmptyString) r) (tl rows).

(** One step of the decoder over a known separator character. *)
Ltac ws_step :=
  change (is_ws ","%char) with false;
  change (is_ws ":"%char) with false;
  change (is_ws " "%char) with true;
  change (is_ws newline) with true;
  cbv iota.

(* ================================================================== *)
(** * Properties *)

(** ** Dictionaries *)

Section DictFacts.
Context {K V : Type}.
Variable eqb : K -> K -> bool.
Hypothesis eqb_spec : forall a b, reflect (a = b) (eqb a b).

Lemma eqb_same (k : K) : eqb k k = true.
Proof. destruct (eqb_spec k k); congruence. Qed.

Lemma eqb_diff (a b : K) : a <> b -> eqb a b = false.
Proof. destruct (eqb_spec a b); congruence. Qed.

Lemma dict_lookup_none (d : list (K * V)) (k : K) :
  dict_lookup eqb d k = None <-> ~ In k (dict_keys d).
Proof.
  induction d as [|[k' v] d IH]; simpl.
  - tauto.
  - destruct (eqb_spec k' k) as [->|Hne].
    + split; [discriminate | intros H; exfalso; apply H; now left].
    + rewrite IH. split; [intros H [E|I]; [congruence | tauto] | tauto].
Qed.

Lemma dict_lookup_in (d : list (K * V)) (k : K) (v : V) :
  dict_lookup eqb d k = Some v -> In (k, v) d.
Proof.
  induction d as [|[k' v'] d IH]; simpl; [discriminate|].
  destruct (eqb_spec k' k) as [->|Hne].
  - intros [= ->]. now left.
  - intros H. right. now apply IH.
Qed.

Lemma dict_in_lookup (d : list (K * V)) (k : K) (v : V) :
  dict_wf d -> In (k, v) d -> dict_lookup eqb d k = Some v.
Proof.
  unfold dict_wf.
  induction d as [|[k' v'] d IH]; simpl; [tauto|].
  intros Hnd [E|I].
  - injection E as -> ->. now rewrite eqb_same.
  - inversion Hnd as [|? ? Hni Hnd']; subst.
    rewrite eqb_diff; [now apply IH|].
    intros ->. apply Hni. unfold dict_keys. now apply (in_map fst) in I.
Qed.

Lemma dict_lookup_upsert_same (f : V -> V) (v0 : V) (d : list (K * V)) (k : K) :
  dict_lookup eqb (dict_upsert eqb f v0 d k) k
  = Some (match dict_lookup eqb d k with Some v => f v | None => v0 end).
Proof.
  induction d as [|[k' v] d IH]; simpl.
  - now rewrite eqb_same.
  - destruct (eqb k' k) eqn:E; simpl; rewrite E; auto.
Qed.

Lemma dict_lookup_upsert_other (f : V -> V) (v0 : V) (d : list (K * V)) (k k' : K) :
  k <> k' ->
  dict_lookup eqb (dict_upsert eqb f v0 d k) k' = dict_lookup eqb d k'.
Proof.
  intros Hne. induction d as [|[k0 v] d IH]; simpl.
  - now rewrite eqb_diff.
  - destruct (eqb_spec k0 k) as [->|Hk]; simpl.
    + now rewrite (eqb_diff k k').
    + now rewrite IH.
Qed.

Lemma dict_keys_upsert (f : V -> V) (v0 : V) (d : list (K * V)) (k : K) :
  dict_keys (dict_upsert eqb f v0 d k)
  = match dict_lookup eqb d k with
    | Some _ => dict_keys d
    | None => dict_keys d ++ [k]
    end.
Proof.
  induction d as [|[k' v] d IH]; simpl; [reflexivity|].
  destruct (eqb k' k) eqn:E; simpl; [reflexivity|].
  rewrite IH. now destruct (dict_lookup eqb d k).
Qed.

Lemma dict_wf_upsert (f : V -> V) (v0 : V) (d : list (K * V)) (k : K) :
  dict_wf d -> dict_wf (dict_upsert eqb f v0 d k).
Proof.
  unfold dict_wf. intros Hnd. rewrite dict_keys_upsert.
  destruct (dict_lookup eqb d k) eqn:E; [assumption|].
  apply dict_lookup_none in E.
  apply NoDup_rev in Hnd.
  rewrite <- (rev_involutive (dict_keys d ++ [k])).
  apply NoDup_rev. rewrite rev_app_distr. simpl.
  constructor; [now rewrite <- in_rev | assumption].
Qed.

Lemma dict_upsert_values (P : V -> Prop) (f : V -> V) (v0 : V)
    (d : list (K * V)) (k : K) :
  (forall v, P v -> P (f v)) -> P v0 ->
  Forall (fun kv => P (snd kv)) d ->
  Forall (fun kv => P (snd kv)) (dict_upsert eqb f v0 d k).
Proof.
  intros Hf H0. induction 1 as [|[k' v] d Hv Hd IH]; simpl.
  - constructor; auto.
  - destruct (eqb k' k); constructor; simpl; auto.
Qed.
End DictFacts.

(** ** The tabular aggregator *)

Lemma forallb_str_impl (p q : ascii -> bool) (s : string) :
  (forall c, p c = true -> q c = true) ->
  PyStr.forallb_str p s = true -> PyStr.forallb_str q s = true.
Proof.
  intros Hpq. induction s as [|c s IH]; simpl; [reflexivity|].
  intros H. apply andb_true_iff in H as [Hc Hs].
  now rewrite (Hpq c Hc), IH.
Qed.

Lemma isdecimal_isdigit (s : string) :
  PyStr.isdecimal s = true -> PyStr.isdigit s = true.
Proof.
  unfold PyStr.isdecimal, PyStr.isdigit.
  destruct s as [|c s]; [discriminate|].
  apply forallb_str_impl. intros c' H.
  unfold PyStr.isdigit_char. now rewrite H.
Qed.

Lemma int_ok (s : string) (n : Z) :
  PyStr.int s = Ok n -> PyStr.isdecimal s = true /\ n = PyStr.digits_value 0 s.
Proof.
  unfold PyStr.int. destruct (PyStr.isdecimal s); [|discriminate].
  intros [= <-]. auto.
Qed.

Lemma vals_of_append_same (per : sdict (list Z)) (y : string) (n : Z) :
  vals_of (append_value per y n) y = vals_of per y ++ [n].
Proof.
  unfold vals_of, append_value.
  rewrite (dict_lookup_upsert_same String.eqb String.eqb_spec).
  now destruct (dict_lookup String.eqb per y).
Qed.

Lemma lookup_append_other (per : sdict (list Z)) (y y' : string) (n : Z) :
  y <> y' ->
  dict_lookup String.eqb (append_value per y n) y' = dict_lookup String.eqb per y'.
Proof.
  intros H. unfold append_value.
  now apply (dict_lookup_upsert_other String.eqb String.eqb_spec).
Qed.

(** The contribution of one row to column [y]. *)
Lemma collect_row_vals (row : TableRow) (years : list string) :
  NoDup years ->
  forall per per', collect_row row years per = Ok per' ->
  forall y,
    vals_of per' y
    = vals_of per y
      ++ (if in_dec string_dec y years
          then column_values [row] y else []).
Proof.
  induction 1 as [|y0 years Hni Hnd IH]; intros per per' Hc y; simpl in Hc.
  - injection Hc as <-. simpl. now rewrite app_nil_r.
  - assert (Hstep : forall per1,
              collect_row row years per1 = Ok per' ->
              y0 <> y -> vals_of per1 y = vals_of per y ->
              vals_of per' y
              = vals_of per y
                ++ (if in_dec string_dec y (y0 :: years)
                    then column_values [row] y else [])).
    { intros per1 H1 Hne Hv. rewrite (IH _ _ H1 y), Hv.
      destruct (in_dec string_dec y years) as [Hi|Hn];
        destruct (in_dec string_dec y (y0 :: years)) as [Hi'|Hn'];
        try reflexivity.
      - exfalso. apply Hn'. now right.
      - destruct Hi' as [E|I]; [congruence | contradiction]. }
    destruct (string_dec y0 y) as [->|Hne].
    + destruct (in_dec string_dec y (y :: years)) as [_|Hn];
        [|exfalso; apply Hn; now left].
      unfold column_values, digit_rows. simpl.
      destruct (PyStr.isdigit (cell_text row y)) eqn:Hd.
      * destruct (PyStr.int (cell_text row y)) as [n|e] eqn:Hint;
          simpl in Hc; [|discriminate].
        apply int_ok in Hint as [_ ->].
        rewrite (IH _ _ Hc y).
        destruct (in_dec string_dec y years); [contradiction|].
        rewrite app_nil_r. apply vals_of_append_same.
      * rewrite (IH _ _ Hc y).
        destruct (in_dec string_dec y years); [contradiction|]. reflexivity.
    + destruct (PyStr.isdigit (cell_text row y0)) eqn:Hd.
      * destruct (PyStr.int (cell_text row y0)) as [n|e] eqn:Hint;
          simpl in Hc; [|discriminate].
        apply (Hstep _ Hc Hne).
        unfold vals_of. now rewrite lookup_append_other.
      * now apply (Hstep _ Hc Hne).
Qed.

(** A completed row raised no [ValueError]: its digit cells are decimal. *)
Lemma collect_row_decimal (row : TableRow) (years : list string) :
  forall per per', collect_row row years per = Ok per' ->
  forall y, In y years ->
    PyStr.isdigit (cell_text row y) = PyStr.isdecimal (cell_text row y).
Proof.
  induction years as [|y0 years IH]; intros per per' Hc y Hin; [destruct Hin|].
  simpl in Hc.
  destruct (PyStr.isdigit (cell_text row y0)) eqn:Hd.
  - destruct (PyStr.int (cell_text row y0)) as [n|e] eqn:Hint;
      simpl in Hc; [|discriminate].
    apply int_ok in Hint as [Hdec _].
    destruct Hin as [<-|Hin]; [congruence | eauto].
  - destruct Hin as [<-|Hin]; [|eauto].
    rewrite Hd. symmetry.
    destruct (PyStr.isdecimal (cell_text row y0)) eqn:E; [|reflexivity].
    apply isdecimal_isdigit in E. congruence.
Qed.

(** Keys are only ever created together with a value. *)
Lemma collect_row_keys (row : TableRow) (years : list string) :
  forall per per', collect_row row years per = Ok per' ->
  dict_wf per -> Forall (fun kv => snd kv <> []) per ->
  dict_wf per' /\ Forall (fun kv => snd kv <> []) per'.
Proof.
  induction years as [|y0 years IH]; intros per per' Hc Hwf Hne; simpl in Hc.
  - injection Hc as <-. auto.
  - destruct (PyStr.isdigit (cell_text row y0)).
    + destruct (PyStr.int (cell_text row y0)) as [n|e]; simpl in Hc; [|discriminate].
      apply (IH _ _ Hc).
      * now apply (dict_wf_upsert String.eqb String.eqb_spec).
      * apply (dict_upsert_values String.eqb (fun v => v <> [])); auto.
        -- intros v _. now destruct v.
        -- discriminate.
    + now apply (IH _ _ Hc).
Qed.

Lemma column_values_cons (row : TableRow) (rows : list TableRow) (y : string) :
  column_values (row :: rows) y = column_values [row] y ++ column_values rows y.
Proof.
  unfold column_values, digit_rows. simpl.
  now destruct (PyStr.isdigit (cell_text row y)).
Qed.

Lemma collect_rows_vals (years : list string) (Hnd : NoDup years) :
  forall rows per per', collect_rows rows years per = Ok per' ->
  forall y,
    vals_of per' y
    = vals_of per y
      ++ (if in_dec string_dec y years then column_values rows y else []).
Proof.
  induction rows as [|row rows IH]; intros per per' Hc y; simpl in Hc.
  - injection Hc as <-. unfold column_values. simpl.
    destruct (in_dec string_dec y years); now rewrite app_nil_r.
  - destruct (collect_row row years per) as [per1|e] eqn:H1; simpl in Hc; [|discriminate].
    rewrite (IH _ _ Hc y), (collect_row_vals row years Hnd _ _ H1 y).
    rewrite (column_values_cons row rows y).
    destruct (in_dec string_dec y years); rewrite <- app_assoc; reflexivity.
Qed.

Lemma collect_rows_decimal (years : list string) :
  forall rows per per', collect_rows rows years per = Ok per' ->
  forall y, In y years ->
    digit_rows rows y = decimal_rows rows y.
Proof.
  induction rows as [|row rows IH]; intros per per' Hc y Hin; [reflexivity|].
  simpl in Hc.
  destruct (collect_row row years per) as [per1|e] eqn:H1; simpl in Hc; [|discriminate].
  unfold digit_rows, decimal_rows in *. simpl.
  rewrite (collect_row_decimal _ _ _ _ H1 y Hin), (IH _ _ Hc y Hin).
  reflexivity.
Qed.

Lemma collect_rows_keys (years : list string) :
  forall rows per per', collect_rows rows years per = Ok per' ->
  dict_wf per -> Forall (fun kv => snd kv <> []) per ->
  dict_wf per' /\ Forall (fun kv => snd kv <> []) per'.
Proof.
  induction rows as [|row rows IH]; intros per per' Hc Hwf Hne; simpl in Hc.
  - injection Hc as <-. auto.
  - destruct (collect_row row years per) as [per1|e] eqn:H1; simpl in Hc; [|discriminate].
    destruct (collect_row_keys _ _ _ _ H1 Hwf Hne) as [Hwf1 Hne1].
    now apply (IH _ _ Hc).
Qed.

Lemma summarize_all_lookup :
  forall per summary, summarize_all per = Ok summary ->
  forall y,
    match dict_lookup String.eqb summary y with
    | Some st => exists vals, dict_lookup String.eqb per y = Some vals
                              /\ summarize vals = Ok st
    | None => dict_lookup String.eqb per y = None
    end.
Proof.
  induction per as [|[y0 vals] per IH]; intros summary Hs y; simpl in Hs.
  - injection Hs as <-. reflexivity.
  - destruct (summarize vals) as [st|e] eqn:H1; simpl in Hs; [|discriminate].
    destruct (summarize_all per) as [rest|e] eqn:H2; simpl in Hs; [|discriminate].
    injection Hs as <-. simpl.
    destruct (String.eqb y0 y); [eauto|]. now apply IH.
Qed.

Lemma summarize_all_keys :
  forall per summary, summarize_all per = Ok summary ->
  dict_keys summary = dict_keys per.
Proof.
  induction per as [|[y0 vals] per IH]; intros summary Hs; simpl in Hs.
  - now injection Hs as <-.
  - destruct (summarize vals) as [st|e]; simpl in Hs; [|discriminate].
    destruct (summarize_all per) as [rest|e]; simpl in Hs; [|discriminate].
    injection Hs as <-. simpl. f_equal. now apply IH.
Qed.

Lemma sum_from (vals : list Z) (a : Z) :
  fold_left Z.add vals a = a + PyNum.sum vals.
Proof.
  unfold PyNum.sum. revert a.
  induction vals as [|v vals IH]; intros a; simpl; [lia|].
  rewrite (IH (a + v)), (IH v). lia.
Qed.

Lemma sum_nonneg (vals : list Z) :
  Forall (fun v => 0 <= v) vals -> 0 <= PyNum.sum vals.
Proof.
  induction 1 as [|v vals Hv _ IH]; [reflexivity|].
  unfold PyNum.sum. simpl. rewrite sum_from. lia.
Qed.

Lemma digits_value_nonneg (s : string) :
  PyStr.forallb_str PyStr.isdecimal_char s = true ->
  forall acc, 0 <= acc -> 0 <= PyStr.digits_value acc s.
Proof.
  induction s as [|c s IH]; intros H acc Hacc; [assumption|].
  cbn [PyStr.forallb_str] in H. cbn [PyStr.digits_value].
  apply andb_true_iff in H as [Hc Hs].
  apply IH; [assumption|].
  unfold PyStr.isdecimal_char, PyStr.between in Hc.
  apply andb_true_iff in Hc as [Hlo Hhi].
  apply Z.leb_le in Hlo. lia.
Qed.

Lemma int_nonneg (s : string) (n : Z) : PyStr.int s = Ok n -> 0 <= n.
Proof.
  intros H. apply int_ok in H as [Hd ->].
  apply digits_value_nonneg; [|lia].
  unfold PyStr.isdecimal in Hd. now destruct s.
Qed.

(** What every value list of the collector looks like. *)
Definition collected (vals : list Z) : Prop :=
  vals <> [] /\ Forall (fun v => 0 <= v) vals.

Lemma collect_row_collected (row : TableRow) (years : list string) :
  forall per per', collect_row row years per = Ok per' ->
  Forall (fun kv => collected (snd kv)) per ->
  Forall (fun kv => collected (snd kv)) per'.
Proof.
  induction years as [|y0 years IH]; intros per per' Hc Hp; simpl in Hc.
  - now injection Hc as <-.
  - destruct (PyStr.isdigit (cell_text row y0)); [|now apply (IH _ _ Hc)].
    destruct (PyStr.int (cell_text row y0)) as [n|e] eqn:Hint;
      simpl in Hc; [|discriminate].
    apply int_nonneg in Hint.
    apply (IH _ _ Hc).
    apply (dict_upsert_values String.eqb collected); auto.
    + intros v [Hv Hf]. split; [now destruct v|].
      apply Forall_app. split; [assumption | now constructor].
    + split; [discriminate | now constructor].
Qed.

Lemma collect_rows_collected (years : list string) :
  forall rows per per', collect_rows rows years per = Ok per' ->
  Forall (fun kv => collected (snd kv)) per ->
  Forall (fun kv => collected (snd kv)) per'.
Proof.
  induction rows as [|row rows IH]; intros per per' Hc Hp; simpl in Hc.
  - now injection Hc as <-.
  - destruct (collect_row row years per) as [per1|e] eqn:H1; simpl in Hc; [|discriminate].
    apply (IH _ _ Hc). now apply (collect_row_collected _ _ _ _ H1).
Qed.

(** A key of the collector was created by a digit value of some row. *)
Lemma collect_row_key_origin (row : TableRow) (years : list string) :
  forall per per', collect_row row years per = Ok per' ->
  forall y, In y (dict_keys per') ->
    In y (dict_keys per)
    \/ (In y years /\ PyStr.isdecimal (cell_text row y) = true).
Proof.
  induction years as [|y0 years IH]; intros per per' Hc y Hin; simpl in Hc.
  - injection Hc as <-. now left.
  - destruct (PyStr.isdigit (cell_text row y0)).
    + destruct (PyStr.int (cell_text row y0)) as [n|e] eqn:Hint;
        simpl in Hc; [|discriminate].
      apply int_ok in Hint as [Hdec _].
      destruct (IH _ _ Hc y Hin) as [Hk|[Hy Hd]].
      * unfold append_value in Hk. rewrite dict_keys_upsert in Hk.
        destruct (dict_lookup String.eqb per y0); [now left|].
        apply in_app_or in Hk as [Hk|[<-|[]]]; [now left|].
        right. split; [now left | assumption].
      * right. split; [now right | assumption].
    + destruct (IH _ _ Hc y Hin) as [Hk|[Hy Hd]]; [now left|].
      right. split; [now right | assumption].
Qed.

Lemma collect_rows_key_origin (years : list string) :
  forall rows per per', collect_rows rows years per = Ok per' ->
  forall y, In y (dict_keys per') ->
    In y (dict_keys per)
    \/ (In y years
        /\ exists row, In row rows /\ PyStr.isdecimal (cell_text row y) = true).
Proof.
  induction rows as [|row rows IH]; intros per per' Hc y Hin; simpl in Hc.
  - injection Hc as <-. now left.
  - destruct (collect_row row years per) as [per1|e] eqn:H1; simpl in Hc; [|discriminate].
    destruct (IH _ _ Hc y Hin) as [Hk|[Hy [r [Hr Hd]]]].
    + destruct (collect_row_key_origin _ _ _ _ H1 y Hk) as [Hk'|[Hy Hd]];
        [now left|].
      right. split; [assumption|]. exists row. split; [now left | assumption].
    + right. split; [assumption|]. exists r. split; [now right | assumption].
Qed.

Lemma summarize_all_in :
  forall per summary, summarize_all per = Ok summary ->
  forall y st, In (y, st) summary ->
    exists vals, In (y, vals) per /\ summarize vals = Ok st.
Proof.
  induction per as [|[y0 vals] per IH]; intros summary Hs y st Hin; simpl in Hs.
  - injection Hs as <-. destruct Hin.
  - destruct (summarize vals) as [st0|e] eqn:H1; simpl in Hs; [|discriminate].
    destruct (summarize_all per) as [rest|e] eqn:H2; simpl in Hs; [|discriminate].
    injection Hs as <-. destruct Hin as [E|Hin].
    + injection E as <- <-. exists vals. split; [now left | assumption].
    + destruct (IH _ eq_refl y st Hin) as [vs [Hv Hsum]].
      exists vs. split; [now right | assumption].
Qed.

Lemma summarize_fields (vals : list Z) (st : stats) :
  summarize vals = Ok st ->
  months_counted st = len vals /\ total_passengers st = PyNum.sum vals.
Proof.
  unfold summarize. intros H.
  destruct (match vals with
            | [] => Ok (PyFloat float_zero)
            | _ :: _ => m <- mean vals;; round2 m
            end) as [avg|e]; simpl in H; [|discriminate].
  injection H as <-. auto.
Qed.

Lemma summarize_avg (v : Z) (vals : list Z) (st : stats) :
  summarize (v :: vals) = Ok st ->
  (m <- mean (v :: vals) ;; round2 m) = Ok (avg_per_month st).
Proof.
  unfold summarize. intros H.
  destruct (m <- mean (v :: vals);; round2 m) as [avg|e]; simpl in H; [|discriminate].
  now injection H as <-.
Qed.

(** The scenario of two full rows: both columns are summarized, and an
    exact mean stays an int. *)
Example process_airtravel_two_rows :
  process_airtravel
    [ [("Month", "JAN"); ("1958", "340"); ("1959", "360")];
      [("Month", "FEB"); ("1958", "318"); ("1959", "342")] ]
  = Ok [ ("1958", mkStats 2 658 (PyInt 329));
         ("1959", mkStats 2 702 (PyInt 351)) ].
Proof. reflexivity. Qed.

(** A mean that is not exact is the float nearest to the quotient, rounded
    to hundredths: 4/3 gives the float written 1.33. *)
Example process_airtravel_inexact_mean :
  process_airtravel
    [ [("Month", "JAN"); ("1958", "1")]; [("Month", "FEB"); ("1958", " 2 ")];
      [("Month", "MAR"); ("1958", "1")] ]
  = Ok [("1958", mkStats 3 4 (PyFloat (mkFloat 5989787504402760 (-52))))]
  /\ float_of_ratio 133 100 = Some (mkFloat 5989787504402760 (-52)).
Proof. split; reflexivity. Qed.

(** A superscript two passes [isdigit] and is refused by [int]. *)
Example process_airtravel_superscript_digit :
  process_airtravel [[("Month", "JAN"); ("1958", String "178" EmptyString)]]
  = Raise ValueError.
Proof. reflexivity. Qed.

(** C4. Applied to an empty row sequence the aggregator fails: reading the
    first row, from which the column set is derived, raises the error of
    indexing an empty list. *)
Theorem process_airtravel_empty_fails :
  process_airtravel [] = Raise IndexError.
Proof. reflexivity. Qed.

(** C10. For a non-empty input on which the aggregator returns a summary,
    every key of the summary is a numeric column of the first row in which
    some row has a trimmed value made of decimal digits only; its entry has
    [months_counted >= 1] and [total_passengers >= 0], and its average is
    the rounded mean of a non-empty value list, never the [0.0] of the
    empty-list branch. *)
Theorem process_airtravel_keys_have_values
    (row0 : TableRow) (rest : list TableRow) (summary : YearlySummary) :
  process_airtravel (row0 :: rest) = Ok summary ->
  forall y st, In (y, st) summary ->
    In y (numeric_columns row0)
    /\ (exists row, In row (row0 :: rest)
                    /\ PyStr.isdecimal (cell_text row y) = true)
    /\ 1 <= months_counted st
    /\ 0 <= total_passengers st
    /\ exists v vals,
         summarize (v :: vals) = Ok st
         /\ (m <- mean (v :: vals) ;; round2 m) = Ok (avg_per_month st).
Proof.
  unfold process_airtravel. intros Hp y st Hin.
  destruct (collect_rows (row0 :: rest) (numeric_columns row0) []) as [per|e] eqn:Hc;
    simpl in Hp; [|discriminate].
  destruct (summarize_all_in _ _ Hp y st Hin) as [vals [Hv Hs]].
  assert (Hcol : collected vals).
  { pose proof (collect_rows_collected _ _ _ _ Hc (Forall_nil _)) as Hall.
    rewrite Forall_forall in Hall. apply (Hall (y, vals) Hv). }
  destruct Hcol as [Hne Hpos].
  assert (Hk : In y (dict_keys per)) by (apply (in_map fst) in Hv; exact Hv).
  destruct (collect_rows_key_origin _ _ _ _ Hc y Hk) as [[]|[Hy Hrow]].
  destruct (summarize_fields _ _ Hs) as [Hm Ht].
  destruct vals as [|v vals]; [congruence|].
  repeat split; try assumption.
  - rewrite Hm. unfold len. cbn [List.length]. lia.
  - rewrite Ht. now apply sum_nonneg.
  - exists v, vals. split; [assumption | now apply summarize_avg].
Qed.

(** The statement of C10 on two rows in which only column 1958 holds
    numbers. *)
Lemma process_airtravel_keys_have_values_witness :
  In "1958" (numeric_columns [("Month", "JAN"); ("1958", "340"); ("1959", "x")])
  /\ (exists row,
        In row [ [("Month", "JAN"); ("1958", "340"); ("1959", "x")];
                 [("Month", "FEB"); ("1958", "318"); ("1959", "y")] ]
        /\ PyStr.isdecimal (cell_text row "1958") = true)
  /\ 1 <= months_counted (mkStats 2 658 (PyInt 329))
  /\ 0 <= total_passengers (mkStats 2 658 (PyInt 329))
  /\ exists v vals,
       summarize (v :: vals) = Ok (mkStats 2 658 (PyInt 329))
       /\ (m <- mean (v :: vals) ;; round2 m)
          = Ok (avg_per_month (mkStats 2 658 (PyInt 329))).
Proof.
  apply (process_airtravel_keys_have_values
           [("Month", "JAN"); ("1958", "340"); ("1959", "x")]
           [[("Month", "FEB"); ("1958", "318"); ("1959", "y")]]
           [("1958", mkStats 2 658 (PyInt 329))]).
  - reflexivity.
  - simpl. left. reflexivity.
Defined.

(** For a dict as first row and a run that raises nothing: a numeric
    column with no decimal value has no entry; any other has the entry
    with the number of its decimal values, their sum, and the rounded
    quotient of the two. *)
Theorem process_airtravel_column
    (row0 : TableRow) (rest : list TableRow) (summary : YearlySummary) (y : string) :
  dict_wf row0 ->
  process_airtravel (row0 :: rest) = Ok summary ->
  In y (numeric_columns row0) ->
  let n := len (decimal_rows (row0 :: rest) y) in
  let total := PyNum.sum (decimal_values (row0 :: rest) y) in
  (n = 0 -> dict_lookup String.eqb summary y = None)
  /\ (n <> 0 ->
      exists avg,
        dict_lookup String.eqb summary y = Some (mkStats n total avg)
        /\ (m <- quotient total n ;; round2 m) = Ok avg).
Proof.
  intros Hwf Hp Hy n total. unfold process_airtravel in Hp.
  set (rows := row0 :: rest) in *. set (years := numeric_columns row0) in *.
  destruct (collect_rows rows years []) as [per|e] eqn:Hc; simpl in Hp; [|discriminate].
  assert (Hnd : NoDup years) by (apply NoDup_filter; exact Hwf).
  pose proof (collect_rows_vals years Hnd _ _ _ Hc y) as Hvals.
  destruct (in_dec string_dec y years) as [_|Hn]; [|contradiction].
  simpl in Hvals.
  pose proof (collect_rows_decimal years _ _ _ Hc y Hy) as Hdec.
  assert (Hcv : column_values rows y = decimal_values rows y)
    by (unfold column_values, decimal_values; now rewrite Hdec).
  rewrite Hcv in Hvals.
  pose proof (collect_rows_collected _ _ _ _ Hc (Forall_nil _)) as Hall.
  rewrite Forall_forall in Hall.
  pose proof (summarize_all_lookup _ _ Hp y) as Hl.
  assert (Hlen : n = len (decimal_values rows y))
    by (unfold n, len, decimal_values; now rewrite length_map).
  split.
  - intros Hn0.
    destruct (dict_lookup String.eqb summary y) as [st|]; [|reflexivity].
    destruct Hl as [vals [Hv _]].
    unfold vals_of in Hvals. rewrite Hv in Hvals.
    apply (dict_lookup_in String.eqb String.eqb_spec) in Hv.
    destruct (Hall _ Hv) as [Hne _]. simpl in Hne.
    rewrite Hlen in Hn0. subst vals.
    destruct (decimal_values rows y); [congruence | unfold len in Hn0; simpl in Hn0; lia].
  - intros Hn0.
    destruct (dict_lookup String.eqb summary y) as [st|].
    + destruct Hl as [vals [Hv Hs]].
      unfold vals_of in Hvals. rewrite Hv in Hvals. subst vals.
      destruct (summarize_fields _ _ Hs) as [Hm Ht].
      exists (avg_per_month st). split.
      * f_equal. destruct st; simpl in *. unfold total. congruence.
      * destruct (decimal_values rows y) as [|v vals] eqn:E.
        -- rewrite Hlen in Hn0. now elim Hn0.
        -- apply summarize_avg in Hs. unfold mean in Hs.
           unfold total. rewrite Hlen. exact Hs.
    + unfold vals_of in Hvals. rewrite Hl in Hvals.
      rewrite Hlen, <- Hvals in Hn0. now elim Hn0.
Qed.

(** ** Sorting *)

Lemma precedes_cons {A : Type} (x : A) (l : list A) (a b : A) :
  precedes l a b -> precedes (x :: l) a b.
Proof.
  intros (l1 & l2 & l3 & ->). now exists (x :: l1), l2, l3.
Qed.

Lemma precedes_head {A : Type} (a b : A) (l : list A) :
  In b l -> precedes (a :: l) a b.
Proof.
  intros H. apply in_split in H as (l2 & l3 & ->). now exists [], l2, l3.
Qed.

Lemma precedes_cons_inv {A : Type} (x : A) (l : list A) (a b : A) :
  precedes (x :: l) a b -> (a = x /\ In b l) \/ precedes l a b.
Proof.
  intros (l1 & l2 & l3 & E). destruct l1 as [|y l1]; simpl in E.
  - injection E as -> ->. left. split; [reflexivity|].
    apply in_or_app. right. now left.
  - injection E as -> ->. right. now exists l1, l2, l3.
Qed.

Lemma precedes_in {A : Type} (l : list A) (a b : A) :
  precedes l a b -> In a l /\ In b l.
Proof.
  intros (l1 & l2 & l3 & ->). split.
  - apply in_or_app. right. now left.
  - apply in_or_app. right. right. apply in_or_app. right. now left.
Qed.

Lemma precedes_app_l {A : Type} (l l' : list A) (a b : A) :
  precedes l a b -> precedes (l ++ l') a b.
Proof.
  intros (l1 & l2 & l3 & ->). exists l1, l2, (l3 ++ l').
  rewrite <- app_assoc. simpl. rewrite <- app_assoc. reflexivity.
Qed.

Lemma precedes_snoc_inv {A : Type} (l : list A) (x a b : A) :
  precedes (l ++ [x]) a b -> precedes l a b \/ (In a l /\ b = x).
Proof.
  induction l as [|y l IH]; simpl; intros H.
  - apply precedes_cons_inv in H as [[_ []]|H].
    destruct H as (l1 & l2 & l3 & E). now destruct l1.
  - apply precedes_cons_inv in H as [[-> Hb]|H].
    + apply in_app_or in Hb as [Hb|[<-|[]]].
      * left. now apply precedes_head.
      * right. split; [now left | reflexivity].
    + destruct (IH H) as [Hp|[Ha ->]].
      * left. now apply precedes_cons.
      * right. split; [now right | reflexivity].
Qed.

Lemma precedes_map {A B : Type} (f : A -> B) (l : list A) (a b : A) :
  precedes l a b -> precedes (map f l) (f a) (f b).
Proof.
  intros (l1 & l2 & l3 & ->). exists (map f l1), (map f l2), (map f l3).
  rewrite map_app. simpl. rewrite map_app. reflexivity.
Qed.

Lemma precedes_nth {A : Type} (l : list A) (i j : nat) (a b : A) :
  (i < j)%nat -> nth_error l i = Some a -> nth_error l j = Some b ->
  precedes l a b.
Proof.
  revert i j. induction l as [|x l IH]; intros i j Hij Hi Hj.
  - now destruct i.
  - destruct j as [|j]; [lia|]. simpl in Hj. destruct i as [|i].
    + injection Hi as ->. apply precedes_head. eapply nth_error_In; eauto.
    + simpl in Hi. apply precedes_cons. apply (IH i j); [lia | assumption..].
Qed.

Lemma precedes_firstn {A : Type} (n : nat) (l : list A) (a b : A) :
  precedes (firstn n l) a b -> precedes l a b.
Proof.
  intros H. rewrite <- (firstn_skipn n l). now apply precedes_app_l.
Qed.

Section SortedFacts.
Context {A : Type}.
Variable le : A -> A -> bool.

Lemma insert_perm (x : A) (l : list A) : Permutation (insert le x l) (x :: l).
Proof.
  induction l as [|y l IH]; simpl; [reflexivity|].
  destruct (le x y); [reflexivity|].
  rewrite IH. apply perm_swap.
Qed.

Lemma sorted_perm (l : list A) : Permutation (sorted le l) l.
Proof.
  induction l as [|x l IH]; simpl; [reflexivity|].
  rewrite insert_perm. now constructor.
Qed.

(** Stability: an element put in front of another came first, unless
    the order wanted it there. *)
Lemma insert_precedes (x : A) (l : list A) (a b : A) :
  precedes (insert le x l) a b ->
  (a = x /\ In b l) \/ (b = x /\ In a l /\ le x a = false) \/ precedes l a b.
Proof.
  induction l as [|y l IH]; simpl; intros H.
  - apply precedes_cons_inv in H as [[_ []]|H].
    destruct H as (l1 & l2 & l3 & E). now destruct l1.
  - destruct (le x y) eqn:Hxy.
    + apply precedes_cons_inv in H as [[-> Hb]|H]; auto.
    + apply precedes_cons_inv in H as [[-> Hb]|H].
      * apply (Permutation_in _ (insert_perm x l)) in Hb as [<-|Hb].
        -- right. left. repeat split; [now left | assumption].
        -- right. right. now apply precedes_head.
      * destruct (IH H) as [[-> Hb]|[(-> & Ha & Hle)|Hp]].
        -- left. split; [reflexivity | now right].
        -- right. left. repeat split; [now right | assumption].
        -- right. right. now apply precedes_cons.
Qed.

Lemma sorted_stable (l : list A) (a b : A) :
  precedes (sorted le l) a b -> le b a = true -> precedes l a b.
Proof.
  induction l as [|x l IH]; simpl; intros H Hba.
  - destruct H as (l1 & l2 & l3 & E). now destruct l1.
  - apply insert_precedes in H as [[-> Hb]|[(-> & Ha & Hle)|Hp]].
    + apply precedes_head. now apply (Permutation_in _ (sorted_perm l)).
    + congruence.
    + apply precedes_cons. now apply IH.
Qed.

Hypothesis le_total : forall a b, le a b = false -> le b a = true.
Hypothesis le_trans :
  forall a b c, le a b = true -> le b c = true -> le a c = true.

Lemma insert_sorted (x : A) (l : list A) :
  StronglySorted (fun a b => le a b = true) l ->
  StronglySorted (fun a b => le a b = true) (insert le x l).
Proof.
  induction 1 as [|y l Hs IH Hy]; simpl.
  - constructor; constructor.
  - destruct (le x y) eqn:Hxy.
    + constructor; [now constructor|].
      constructor; [assumption|].
      rewrite Forall_forall in *. intros z Hz. eapply le_trans; eauto.
    + constructor; [assumption|].
      rewrite Forall_forall in *. intros z Hz.
      apply (Permutation_in _ (insert_perm x l)) in Hz as [<-|Hz]; auto.
Qed.

Lemma sorted_sorted (l : list A) :
  StronglySorted (fun a b => le a b = true) (sorted le l).
Proof.
  induction l as [|x l IH]; simpl; [constructor | now apply insert_sorted].
Qed.
End SortedFacts.

Lemma StronglySorted_firstn {A : Type} (R : A -> A -> Prop) (n : nat) (l : list A) :
  StronglySorted R l -> StronglySorted R (firstn n l).
Proof.
  intros H. revert n. induction H as [|x l Hs IH Hx]; intros [|n]; simpl;
    try constructor; auto.
  rewrite Forall_forall in *. intros y Hy. apply Hx.
  rewrite <- (firstn_skipn n l). apply in_or_app. now left.
Qed.

Lemma StronglySorted_impl {A : Type} (R R' : A -> A -> Prop) (l : list A) :
  (forall a b, R a b -> R' a b) ->
  StronglySorted R l -> StronglySorted R' l.
Proof.
  intros HR. induction 1 as [|x l Hs IH Hx]; constructor; auto.
  rewrite Forall_forall in *. auto.
Qed.

Lemma NoDup_firstn_of {A : Type} (n : nat) (l : list A) :
  NoDup l -> NoDup (firstn n l).
Proof.
  intros H. rewrite <- (firstn_skipn n l) in H.
  now apply NoDup_app_remove_r in H.
Qed.

Lemma by_count_desc_sorted {K : Type} (c : list (K * Z)) :
  StronglySorted (fun a b => snd b <= snd a) (by_count_desc c).
Proof.
  unfold by_count_desc.
  apply (StronglySorted_impl (fun a b => (snd b <=? snd a) = true)).
  - intros a b H. now apply Z.leb_le.
  - apply sorted_sorted.
    + intros a b H. apply Z.leb_gt in H. apply Z.leb_le. lia.
    + intros a b d H1 H2. apply Z.leb_le in H1, H2. apply Z.leb_le. lia.
Qed.

(** ** Counters *)

Section CounterFacts.
Context {K : Type}.
Variable eqb : K -> K -> bool.
Hypothesis eqb_spec : forall a b, reflect (a = b) (eqb a b).

Lemma counter_add_total (c : list (K * Z)) (k : K) :
  PyNum.sum (map snd (counter_add eqb c k)) = PyNum.sum (map snd c) + 1.
Proof.
  unfold counter_add.
  induction c as [|[k' n] c IH]; simpl; [reflexivity|].
  unfold PyNum.sum in *.
  destruct (eqb k' k); simpl; rewrite !(sum_from _ n), ?(sum_from _ (n + 1)).
  - unfold PyNum.sum. lia.
  - unfold PyNum.sum. rewrite IH. lia.
Qed.

Lemma counter_from_total (l : list K) (c : list (K * Z)) :
  PyNum.sum (map snd (fold_left (counter_add eqb) l c))
  = PyNum.sum (map snd c) + len l.
Proof.
  revert c. induction l as [|k l IH]; intros c; simpl.
  - unfold len. simpl. lia.
  - rewrite IH, counter_add_total. unfold len. cbn [List.length]. lia.
Qed.

(** The counts of a counter add up to the number of elements counted. *)
Lemma Counter_total (l : list K) :
  PyNum.sum (map snd (Counter eqb l)) = len l.
Proof. unfold Counter. now rewrite counter_from_total. Qed.

Lemma counter_from_wf (l : list K) (c : list (K * Z)) :
  dict_wf c -> dict_wf (fold_left (counter_add eqb) l c).
Proof.
  revert c. induction l as [|k l IH]; intros c Hc; simpl; [assumption|].
  apply IH. now apply dict_wf_upsert.
Qed.

Lemma Counter_wf (l : list K) : dict_wf (Counter eqb l).
Proof. apply counter_from_wf. constructor. Qed.
End CounterFacts.

(** The keys of a counter of words are in the order of first occurrence. *)
Lemma counter_from_order (ws : list string) :
  forall (c : list (string * Z)) (a b : string),
    precedes (dict_keys (fold_left (counter_add String.eqb) ws c)) a b ->
    precedes (dict_keys c) a b
    \/ (In a (dict_keys c) /\ ~ In b (dict_keys c))
    \/ (~ In a (dict_keys c) /\ ~ In b (dict_keys c)
        /\ (first_index a ws < first_index b ws)%nat).
Proof.
  induction ws as [|x ws IH]; intros c a b H; simpl in H; [now left|].
  apply IH in H. unfold counter_add in H. rewrite dict_keys_upsert in H.
  destruct (dict_lookup String.eqb c x) eqn:Hx.
  - assert (Hin : In x (dict_keys c)).
    { apply (dict_lookup_in String.eqb String.eqb_spec) in Hx.
      now apply (in_map fst) in Hx. }
    destruct H as [H|[H|(Ha & Hb & Hlt)]]; auto.
    right. right. repeat split; auto. simpl.
    destruct (String.eqb_spec x a) as [->|_]; [contradiction|].
    destruct (String.eqb_spec x b) as [->|_]; [contradiction|]. lia.
  - apply (dict_lookup_none String.eqb String.eqb_spec) in Hx.
    destruct H as [H|[[Ha Hb]|(Ha & Hb & Hlt)]].
    + apply precedes_snoc_inv in H as [H|[Ha ->]]; auto.
    + apply in_app_or in Ha as [Ha|[<-|[]]].
      * right. left. split; [assumption|].
        intros Hb'. apply Hb. apply in_or_app. now left.
      * right. right. repeat split; [assumption| |].
        -- intros Hb'. apply Hb. apply in_or_app. now left.
        -- simpl. rewrite String.eqb_refl.
           destruct (String.eqb_spec x b) as [->|_]; [|lia].
           exfalso. apply Hb. apply in_or_app. right. now left.
    + right. right.
      assert (Ha' : ~ In a (dict_keys c) /\ x <> a).
      { split; intros E; apply Ha; apply in_or_app;
          [now left | right; now left]. }
      assert (Hb' : ~ In b (dict_keys c) /\ x <> b).
      { split; intros E; apply Hb; apply in_or_app;
          [now left | right; now left]. }
      destruct Ha' as [Ha1 Ha2], Hb' as [Hb1 Hb2].
      repeat split; auto. simpl.
      destruct (String.eqb_spec x a); [contradiction|].
      destruct (String.eqb_spec x b); [contradiction|]. lia.
Qed.

Lemma Counter_order (ws : list string) (a b : string * Z) :
  precedes (Counter String.eqb ws) a b ->
  (first_index (fst a) ws < first_index (fst b) ws)%nat.
Proof.
  intros H. apply (precedes_map fst) in H.
  apply counter_from_order in H as [H|[[[] _]|(_ & _ & H)]]; [|assumption].
  destruct H as (l1 & l2 & l3 & E). now destruct l1.
Qed.

(** Filtering a stream keeps the order of first occurrences. *)
Lemma first_index_filter (p : string -> bool) (a b : string) (l : list string) :
  p a = true -> p b = true ->
  (first_index a (filter p l) < first_index b (filter p l))%nat ->
  (first_index a l < first_index b l)%nat.
Proof.
  intros Ha Hb. induction l as [|x l IH]; simpl; [lia|].
  destruct (p x) eqn:Hx; simpl.
  - destruct (String.eqb x a), (String.eqb x b); lia.
  - destruct (String.eqb_spec x a) as [->|_]; [congruence|].
    destruct (String.eqb_spec x b) as [->|_]; [congruence|].
    intros H. apply IH in H. lia.
Qed.

Lemma Counter_keys_in (ws : list string) (a : string * Z) :
  In a (Counter String.eqb ws) -> In (fst a) ws.
Proof.
  unfold Counter.
  assert (G : forall c, In a (fold_left (counter_add String.eqb) ws c) ->
                        In (fst a) (dict_keys c) \/ In (fst a) ws).
  { induction ws as [|x ws IH]; intros c H; simpl in H.
    - left. now apply (in_map fst) in H.
    - apply IH in H as [H|H]; [|right; now right].
      unfold counter_add in H. rewrite dict_keys_upsert in H.
      destruct (dict_lookup String.eqb c x); [now left|].
      apply in_app_or in H as [H|[<-|[]]]; [now left | right; now left]. }
  intros H. apply G in H as [[]|H]. assumption.
Qed.

(** The ranking that both analyzers compute. *)
Lemma most_common_ranked (cap : nat) (p : string -> bool) (stream : list string) :
  ranked cap stream (most_common cap (Counter String.eqb (filter p stream))).
Proof.
  set (c := Counter String.eqb (filter p stream)).
  unfold most_common. repeat split.
  - apply firstn_le_length.
  - rewrite <- firstn_map. apply NoDup_firstn_of.
    apply (Permutation_NoDup (l := map fst c)).
    + apply Permutation_map. symmetry. apply sorted_perm.
    + apply (Counter_wf String.eqb String.eqb_spec).
  - apply StronglySorted_firstn, by_count_desc_sorted.
  - intros i j a b Hij Hi Hj Heq.
    pose proof (precedes_nth _ _ _ _ _ Hij Hi Hj) as H.
    apply precedes_firstn in H.
    pose proof (precedes_in _ _ _ H) as [Ina Inb].
    apply sorted_stable in H; [|apply Z.leb_le; lia].
    apply (Permutation_in _ (sorted_perm _ c)) in Ina, Inb.
    apply Counter_keys_in in Ina, Inb.
    apply filter_In in Ina as [_ Pa], Inb as [_ Pb].
    apply (first_index_filter p); auto.
    now apply Counter_order.
Qed.

(** ** The analyzers *)

(** The scenario of the text metrics analyzer: six words, of which only
    the one of five letters is ranked. *)
Example process_text_report_scenario :
  process_text_report "aa bb ccc dddd eeeee eeeee"
  = mkTextMetrics 26 6 [("eeeee", 2)].
Proof. reflexivity. Qed.

(** C5. The top-word list of the posts analyzer has at most 15 entries and
    the one of the text metrics analyzer at most 20; in both no word occurs
    twice, the counts are in descending order, and entries with equal
    counts are in the order of the first occurrence of their words in the
    tokenized stream. *)
Theorem top_words_ranked (posts : list Post) (text : string) :
  ranked 15 (tokenize (all_text posts))
    (map (fun tw => (word tw, count tw)) (top_words (process_posts posts)))
  /\ ranked 20 (tokenize text) (text_top_words (process_text_report text)).
Proof.
  split.
  - unfold process_posts, posts_words. simpl.
    rewrite map_map. simpl.
    rewrite (map_ext _ (fun wc => wc)) by (now intros [w c]).
    rewrite map_id. apply most_common_ranked.
  - unfold process_text_report. simpl. apply most_common_ranked.
Qed.

(** C6. [post_count] is the length of the input collection, and the counts
    of [posts_per_user] add up to it. *)
Theorem post_count_is_total (posts : list Post) :
  post_count (process_posts posts) = len posts
  /\ PyNum.sum (map snd (posts_per_user (process_posts posts)))
     = post_count (process_posts posts).
Proof.
  split; [reflexivity|].
  unfold process_posts. simpl.
  rewrite Counter_total. unfold len. now rewrite length_map.
Qed.

(** C9. A record without a [title] or a [body] is processed as if the
    missing field were the empty string: the summary is the one of the
    collection in which the missing fields are filled in with it. *)
Theorem missing_fields_as_empty (posts : list Post) :
  process_posts posts = process_posts (map fill_missing posts).
Proof.
  unfold process_posts, posts_words, all_text, len.
  rewrite !map_map, length_map.
  reflexivity.
Qed.

(** ** The writers of the tabular summary *)

(** C8. The delimited-table writer emits the header record
    [year, months_counted, total_passengers, avg_per_month] and then one
    record per key of the summary, in the order of the summary; for an
    empty summary it emits the header alone. *)
Theorem write_csv_records (summary : YearlySummary) :
  write_csv_yearly_totals summary
  = [CStr "year"; CStr "months_counted"; CStr "total_passengers";
     CStr "avg_per_month"]
    :: map (fun item =>
              [ CStr (fst item);
                CNum (PyInt (months_counted (snd item)));
                CNum (PyInt (total_passengers (snd item)));
                CNum (avg_per_month (snd item)) ]) summary
  /\ write_csv_yearly_totals []
     = [[CStr "year"; CStr "months_counted"; CStr "total_passengers";
         CStr "avg_per_month"]].
Proof. split; reflexivity. Qed.

Lemma ascii_compare_N (a b : ascii) :
  Ascii.compare a b = N.compare (N_of_ascii a) (N_of_ascii b).
Proof. reflexivity. Qed.

Lemma string_leb_trans (a b c : string) :
  String.leb a b = true -> String.leb b c = true -> String.leb a c = true.
Proof.
  unfold String.leb. revert b c.
  induction a as [|x a IH]; intros [|y b] [|z c]; simpl; try congruence.
  rewrite !ascii_compare_N.
  destruct (N.compare_spec (N_of_ascii x) (N_of_ascii y)) as [E1|L1|G1];
    destruct (N.compare_spec (N_of_ascii y) (N_of_ascii z)) as [E2|L2|G2];
    destruct (N.compare_spec (N_of_ascii x) (N_of_ascii z)) as [E3|L3|G3];
    try congruence; try lia; auto.
  apply IH.
Qed.

Lemma string_leb_total (a b : string) :
  String.leb a b = false -> String.leb b a = true.
Proof.
  intros H. destruct (String.leb_total a b); congruence.
Qed.

(** C7. The spreadsheet writer produces a first sheet titled
    [AirTravel Summary], with the header Year, Months Counted, Total
    Passengers, Avg Per Month and one row per year, the years ascending
    under string comparison; and a second sheet titled [Totals Ranking],
    with the header Year, Total Passengers and one row per year, the totals
    descending. *)
Theorem write_excel_sheets (summary : YearlySummary) :
  exists by_year by_total,
    write_excel summary
    = [ mkSheet "AirTravel Summary"
          ([CStr "Year"; CStr "Months Counted"; CStr "Total Passengers";
            CStr "Avg Per Month"]
           :: map (fun item =>
                     [ CStr (fst item);
                       CNum (PyInt (months_counted (snd item)));
                       CNum (PyInt (total_passengers (snd item)));
                       CNum (avg_per_month (snd item)) ]) by_year);
        mkSheet "Totals Ranking"
          ([CStr "Year"; CStr "Total Passengers"]
           :: map (fun item =>
                     [ CStr (fst item);
                       CNum (PyInt (total_passengers (snd item))) ]) by_total) ]
    /\ Permutation by_year summary
    /\ StronglySorted (fun a b => String.leb (fst a) (fst b) = true) by_year
    /\ Permutation by_total summary
    /\ StronglySorted
         (fun a b => total_passengers (snd b) <= total_passengers (snd a))
         by_total.
Proof.
  exists (items_by_year summary), (items_by_total_desc summary).
  split; [reflexivity|]. repeat split.
  - apply sorted_perm.
  - apply (sorted_sorted (fun a b => String.leb (fst a) (fst b))).
    + intros a b. apply string_leb_total.
    + intros a b c. apply string_leb_trans.
  - apply sorted_perm.
  - apply (StronglySorted_impl
             (fun a b => (total_passengers (snd b) <=? total_passengers (snd a)) = true)).
    + intros a b H. now apply Z.leb_le.
    + apply (sorted_sorted
               (fun a b => total_passengers (snd b) <=? total_passengers (snd a))).
      * intros a b H. apply Z.leb_gt in H. apply Z.leb_le. lia.
      * intros a b c H1 H2. apply Z.leb_le in H1, H2. apply Z.leb_le. lia.
Qed.

(** C1. On the input with the single row [Month = JAN, 1958 = N/A] the
    column 1958 has no value made of digits, and the summary has no entry
    for it: the aggregator returns the empty summary. *)
Theorem process_airtravel_no_digit_column :
  process_airtravel [[("Month", "JAN"); ("1958", "N/A")]] = Ok [].
Proof. reflexivity. Qed.

(** C2. On two rows in which 1958 holds 340 and 318 and 1959 holds no
    number, the summary has the entry of 1958 and none for 1959. *)
Theorem process_airtravel_partial_columns :
  process_airtravel
    [ [("Month", "JAN"); ("1958", "340"); ("1959", EmptyString)];
      [("Month", "FEB"); ("1958", "318"); ("1959", "n/a")] ]
  = Ok [("1958", mkStats 2 658 (PyInt 329))].
Proof. reflexivity. Qed.

(** ** The JSON writer and the decoder *)

Lemma append_assoc (a b c : string) :
  String.append (String.append a b) c = String.append a (String.append b c).
Proof. induction a as [|x a IH]; simpl; [reflexivity | now rewrite IH]. Qed.

Lemma append_nil_r (a : string) : String.append a EmptyString = a.
Proof. induction a as [|x a IH]; simpl; [reflexivity | now rewrite IH]. Qed.

Lemma forallb_str_append (p : ascii -> bool) (a b : string) :
  PyStr.forallb_str p (String.append a b)
  = PyStr.forallb_str p a && PyStr.forallb_str p b.
Proof.
  induction a as [|x a IH]; simpl; [reflexivity|].
  now rewrite IH, andb_assoc.
Qed.

(** *** String literals *)

Lemma plain_char_escape (c : ascii) :
  plain_char c = true -> escape_char c = String c EmptyString.
Proof.
  unfold plain_char, escape_char. intros H.
  apply andb_true_iff in H as [H Hb]. apply andb_true_iff in H as [Hr Hq].
  apply negb_true_iff in Hq, Hb. now rewrite Hq, Hb, Hr.
Qed.

Lemma plain_escape (s : string) : plain s = true -> escape s = s.
Proof.
  unfold plain. induction s as [|c s IH]; simpl; [reflexivity|].
  intros H. apply andb_true_iff in H as [Hc Hs].
  now rewrite (plain_char_escape c Hc), IH.
Qed.

Lemma plain_char_scan (c : ascii) :
  plain_char c = true ->
  (c =? quote)%char = false /\ (c =? backslash)%char = false
  /\ (PyStr.code c <? 32) = false.
Proof.
  unfold plain_char. intros H.
  apply andb_true_iff in H as [H Hb]. apply andb_true_iff in H as [Hr Hq].
  apply negb_true_iff in Hq, Hb. repeat split; try assumption.
  unfold PyStr.between in Hr. apply andb_true_iff in Hr as [Hlo _].
  apply Z.leb_le in Hlo. apply Z.ltb_ge. exact Hlo.
Qed.

Lemma scanstring_plain (s rest : string) :
  plain s = true ->
  scanstring (String.append s (String quote rest)) = Some (s, rest).
Proof.
  unfold plain. induction s as [|c s IH]; intros H.
  - reflexivity.
  - cbn [PyStr.forallb_str] in H. apply andb_true_iff in H as [Hc Hs].
    destruct (plain_char_scan c Hc) as (Hq & Hb & Hlo).
    cbn [String.append scanstring]. rewrite Hq, Hb, Hlo, (IH Hs). reflexivity.
Qed.

Lemma encode_str_plain (s : string) :
  plain s = true ->
  encode_str s = String quote (String.append s (String quote EmptyString)).
Proof. intros H. unfold encode_str. now rewrite plain_escape. Qed.

(** *** Integers *)

Lemma below_ten (P : Z -> Prop) :
  (forall k, (k < 10)%nat -> P (Z.of_nat k)) -> forall n, 0 <= n < 10 -> P n.
Proof.
  intros HP n Hn. rewrite <- (Z2Nat.id n) by lia. apply HP. lia.
Qed.

Lemma digit_char_decimal (n : Z) :
  0 <= n < 10 ->
  PyStr.isdecimal_char (digit_char n) = true
  /\ PyStr.code (digit_char n) = 48 + n.
Proof.
  revert n. apply below_ten. intros k Hk.
  do 10 (destruct k as [|k]; [split; reflexivity|]). lia.
Qed.

Lemma digits_value_append (a b : string) (acc : Z) :
  PyStr.digits_value acc (String.append a b)
  = PyStr.digits_value (PyStr.digits_value acc a) b.
Proof.
  revert acc. induction a as [|c a IH]; intros acc; [reflexivity|].
  cbn [String.append PyStr.digits_value]. apply IH.
Qed.

Lemma isdecimal_forallb (s : string) :
  s <> EmptyString -> PyStr.forallb_str PyStr.isdecimal_char s = true ->
  PyStr.isdecimal s = true.
Proof. unfold PyStr.isdecimal. now destruct s. Qed.

Lemma decimal_digits (fuel : nat) :
  forall n, 0 <= n < 2 ^ Z.of_nat fuel -> (0 < fuel)%nat ->
    decimal fuel n <> EmptyString
    /\ PyStr.forallb_str PyStr.isdecimal_char (decimal fuel n) = true
    /\ PyStr.digits_value 0 (decimal fuel n) = n.
Proof.
  induction fuel as [|fuel IH]; intros n Hn Hf; [lia|].
  cbn [decimal]. destruct (Z.ltb_spec n 10) as [Hlt|Hge].
  - destruct (digit_char_decimal n) as [Hd Hc]; [lia|].
    repeat split.
    + discriminate.
    + cbn [PyStr.forallb_str]. now rewrite Hd.
    + cbn [PyStr.digits_value]. rewrite Hc. lia.
  - assert (Hq : 0 <= n / 10 < 2 ^ Z.of_nat fuel).
    { split; [apply Z.div_pos; lia|].
      rewrite Nat2Z.inj_succ, Z.pow_succ_r in Hn by lia.
      apply Z.div_lt_upper_bound; lia. }
    assert (Hfuel : (0 < fuel)%nat).
    { destruct fuel; [|lia]. simpl in Hq.
      assert (1 <= n / 10) by (apply Z.div_le_lower_bound; lia). lia. }
    destruct (IH _ Hq Hfuel) as (Hne & Hd & Hv).
    destruct (digit_char_decimal (n mod 10)) as [Hd' Hc'];
      [apply Z.mod_pos_bound; lia|].
    repeat split.
    + destruct (decimal fuel (n / 10)); [congruence | discriminate].
    + rewrite forallb_str_append, Hd. cbn [PyStr.forallb_str]. now rewrite Hd'.
    + rewrite digits_value_append, Hv. cbn [PyStr.digits_value].
      rewrite Hc'. pose proof (Z.div_mod n 10). lia.
Qed.

(** The digits written for [n] are decimal digits, there is at least one
    of them, and they denote [n]. *)
Lemma decimal_spec (fuel : nat) :
  forall n, 0 <= n < 2 ^ Z.of_nat fuel -> (0 < fuel)%nat ->
    PyStr.isdecimal (decimal fuel n) = true
    /\ PyStr.digits_value 0 (decimal fuel n) = n.
Proof.
  intros n Hn Hf. destruct (decimal_digits fuel n Hn Hf) as (Hne & Hd & Hv).
  split; [now apply isdecimal_forallb | assumption].
Qed.

(** A positive number is not written with a leading zero. *)
Lemma decimal_head (fuel : nat) :
  forall n, 0 < n < 2 ^ Z.of_nat fuel ->
    exists c r, decimal fuel n = String c r
                /\ PyStr.isdecimal_char c = true /\ (c =? "0")%char = false.
Proof.
  induction fuel as [|fuel IH]; intros n Hn; [simpl in Hn; lia|].
  cbn [decimal]. destruct (Z.ltb_spec n 10) as [Hlt|Hge].
  - exists (digit_char n), EmptyString.
    assert (Hdigit : 0 <= n < 10) by lia.
    assert (Hpos : n <> 0) by lia. clear Hn Hlt.
    revert n Hdigit Hpos. apply (below_ten (fun n => n <> 0 -> _)).
    intros k Hk Hpos. destruct k as [|k]; [now elim Hpos|].
    do 9 (destruct k as [|k]; [repeat split; reflexivity|]). lia.
  - assert (Hq : 0 < n / 10 < 2 ^ Z.of_nat fuel).
    { split; [apply Z.div_str_pos; lia|].
      rewrite Nat2Z.inj_succ, Z.pow_succ_r in Hn by lia.
      apply Z.div_lt_upper_bound; lia. }
    destruct (IH _ Hq) as (c & r & E & Hd & Hz).
    rewrite E. cbn [String.append]. eauto.
Qed.

Lemma log2_fuel (z : Z) : 0 <= z -> z < 2 ^ Z.of_nat (S (Z.to_nat (Z.log2 z))).
Proof.
  intros Hz. rewrite Nat2Z.inj_succ, Z2Nat.id by apply Z.log2_nonneg.
  destruct (Z.eq_dec z 0) as [->|Hne]; [reflexivity|].
  apply Z.log2_spec. lia.
Qed.

Lemma span_digits_append (ds rest : string) :
  PyStr.forallb_str PyStr.isdecimal_char ds = true ->
  match rest with
  | EmptyString => True
  | String c _ => PyStr.isdecimal_char c = false
  end ->
  span_digits (String.append ds rest) = (ds, rest).
Proof.
  intros Hd Hr. induction ds as [|c ds IH].
  - simpl. destruct rest as [|c r]; [reflexivity|]. simpl. now rewrite Hr.
  - cbn [PyStr.forallb_str] in Hd. apply andb_true_iff in Hd as [Hc Hs].
    cbn [String.append span_digits]. now rewrite Hc, (IH Hs).
Qed.

Lemma delimited_after_int (rest : string) :
  delimited rest = true ->
  match rest with
  | EmptyString => True
  | String c _ => PyStr.isdecimal_char c = false
  end
  /\ starts_fraction rest = false.
Proof.
  destruct rest as [|c r]; [now split|].
  unfold delimited. intros H. apply orb_true_iff in H as [H|H];
    apply Ascii.eqb_eq in H; subst c; split; reflexivity.
Qed.

Lemma scan_digits (fuel : nat) (n : Z) (rest : string) :
  0 <= n < 2 ^ Z.of_nat fuel -> (0 < fuel)%nat -> delimited rest = true ->
  match String.append (decimal fuel n) rest with
  | String c r =>
      if (c =? "0")%char then ("0", r)
      else span_digits (String.append (decimal fuel n) rest)
  | EmptyString => (EmptyString, EmptyString)
  end = (decimal fuel n, rest).
Proof.
  intros Hn Hf Hr.
  destruct (delimited_after_int rest Hr) as [Hnd _].
  destruct (decimal_spec fuel n Hn Hf) as [Hdec _].
  destruct (Z.eq_dec n 0) as [->|Hne].
  - destruct fuel; [lia|]. reflexivity.
  - destruct (decimal_head fuel n) as (c & r & E & Hd & Hz); [lia|].
    rewrite E. cbn [String.append]. rewrite Hz.
    change (String c (String.append r rest)) with (String.append (String c r) rest).
    rewrite <- E. apply span_digits_append; [|assumption].
    unfold PyStr.isdecimal in Hdec. now destruct (decimal fuel n).
Qed.

Lemma scan_int_repr (z : Z) (rest : string) :
  delimited rest = true ->
  scan_int (String.append (repr_int z) rest) = Some (z, rest).
Proof.
  intros Hr. destruct (delimited_after_int rest Hr) as [_ Hfr].
  unfold repr_int. destruct (Z.ltb_spec z 0) as [Hneg|Hpos].
  - set (fuel := S (Z.to_nat (Z.log2 (- z)))).
    assert (Hn : 0 <= - z < 2 ^ Z.of_nat fuel)
      by (split; [lia | apply log2_fuel; lia]).
    destruct (decimal_spec fuel (- z) Hn ltac:(unfold fuel; lia)) as [Hdec Hv].
    unfold scan_int. cbn [String.append]. cbv iota beta.
    change (("-" =? "-")%char) with true. cbv iota.
    rewrite (scan_digits fuel (- z) rest Hn ltac:(unfold fuel; lia) Hr).
    unfold PyStr.isdecimal in Hdec.
    destruct (decimal fuel (- z)) as [|c r] eqn:E; [discriminate|].
    rewrite Hfr, Hv. f_equal. f_equal. lia.
  - set (fuel := S (Z.to_nat (Z.log2 z))).
    assert (Hn : 0 <= z < 2 ^ Z.of_nat fuel)
      by (split; [lia | apply log2_fuel; lia]).
    destruct (decimal_spec fuel z Hn ltac:(unfold fuel; lia)) as [Hdec Hv].
    pose proof (scan_digits fuel z rest Hn ltac:(unfold fuel; lia) Hr) as Hsd.
    unfold scan_int.
    assert (Hhead : exists c r, String.append (decimal fuel z) rest = String c r
                                /\ (c =? "-")%char = false).
    { unfold PyStr.isdecimal in Hdec.
      destruct (decimal fuel z) as [|c r] eqn:E; [discriminate|].
      exists c, (String.append r rest). split; [reflexivity|].
      cbn [PyStr.forallb_str] in Hdec. apply andb_true_iff in Hdec as [Hc _].
      destruct (Ascii.eqb_spec c "-"); [subst c; discriminate | reflexivity]. }
    destruct Hhead as (c & r & E & Hm).
    rewrite E at 1. rewrite Hm. rewrite Hsd.
    unfold PyStr.isdecimal in Hdec.
    destruct (decimal fuel z) as [|c' r'] eqn:E'; [discriminate|].
    now rewrite Hfr, Hv.
Qed.

(** *** White space and first characters *)

Lemma skip_ws_spaces (n : nat) (s : string) :
  skip_ws (String.append (spaces n) s) = skip_ws s.
Proof. induction n as [|n IH]; simpl; [reflexivity | exact IH]. Qed.

Lemma skip_ws_newline_indent (lvl : nat) (s : string) :
  skip_ws (String.append (newline_indent lvl) s) = skip_ws s.
Proof. unfold newline_indent. cbn [String.append skip_ws]. simpl is_ws. cbv iota. apply skip_ws_spaces. Qed.

Lemma skip_ws_separator (lvl : nat) (s : string) :
  skip_ws (String.append (item_separator lvl) s)
  = String "," (String.append (newline_indent lvl) s).
Proof. reflexivity. Qed.

Lemma value_start_facts (c : ascii) :
  value_start c = true ->
  is_ws c = false /\ (c =? "]")%char = false /\ (c =? "}")%char = false.
Proof.
  destruct c as [[] [] [] [] [] [] [] []]; vm_compute; intros H;
    try discriminate H; repeat split.
Qed.

Lemma skip_ws_start (c : ascii) (r : string) :
  is_ws c = false -> skip_ws (String c r) = String c r.
Proof. intros H. simpl. now rewrite H. Qed.

Lemma repr_int_head (z : Z) :
  exists c r, repr_int z = String c r /\ value_start c = true.
Proof.
  unfold repr_int. destruct (Z.ltb_spec z 0) as [Hneg|Hpos].
  - eexists _, _. split; reflexivity.
  - set (fuel := S (Z.to_nat (Z.log2 z))).
    assert (Hn : 0 <= z < 2 ^ Z.of_nat fuel)
      by (split; [lia | apply log2_fuel; lia]).
    destruct (decimal_digits fuel z Hn ltac:(unfold fuel; lia)) as (Hne & Hd & _).
    destruct (decimal fuel z) as [|c r]; [congruence|].
    exists c, r. split; [reflexivity|].
    cbn [PyStr.forallb_str] in Hd. apply andb_true_iff in Hd as [Hc _].
    unfold value_start. rewrite Hc. now rewrite !orb_true_r.
Qed.

Lemma encode_head (lvl : nat) (v : value) :
  exists c r, encode lvl v = String c r /\ value_start c = true.
Proof.
  destruct v as [|z|s|[|x l]|[|kv d]]; try (eexists _, _; split; reflexivity).
  apply repr_int_head.
Qed.

Lemma encode_item_head (lvl : nat) (kv : key * value) :
  exists r, encode_item lvl kv = String quote r.
Proof. unfold encode_item, encode_str. cbn [String.append]. eauto. Qed.

Lemma string_cons_inj (c : ascii) (a b : string) :
  String c a = String c b -> a = b.
Proof. now intros [= ->]. Qed.

Lemma append_head (a b : string) (c : ascii) (r : string) :
  a = String c r -> String.append a b = String c (String.append r b).
Proof. now intros ->. Qed.

Lemma concat_cons2 (sep x y : string) (l : list string) :
  String.concat sep (x :: y :: l)
  = String.append x (String.append sep (String.concat sep (y :: l))).
Proof. reflexivity. Qed.

(** *** Dicts read from pairs *)

Lemma key_eqb_spec (a b : key) : reflect (a = b) (key_eqb a b).
Proof.
  destruct a as [|x|s], b as [|y|t]; simpl; try (constructor; congruence).
  - destruct (Z.eqb_spec x y); constructor; congruence.
  - destruct (String.eqb_spec s t); constructor; congruence.
Qed.

Lemma dict_upsert_new {K V : Type} (eqb : K -> K -> bool) (f : V -> V) (v0 : V)
    (d : list (K * V)) (k : K) :
  dict_lookup eqb d k = None -> dict_upsert eqb f v0 d k = d ++ [(k, v0)].
Proof.
  induction d as [|[k' v] d IH]; simpl; [reflexivity|].
  destruct (eqb k' k); [discriminate|]. intros H. now rewrite IH.
Qed.

Lemma dict_of_pairs_from (pairs : list (string * value)) :
  forall acc,
    NoDup (map fst pairs) ->
    (forall k, In k (map fst pairs) -> ~ In (KStr k) (dict_keys acc)) ->
    fold_left (fun d kv => dict_set d (KStr (fst kv)) (snd kv)) pairs acc
    = acc ++ map (fun kv => (KStr (fst kv), snd kv)) pairs.
Proof.
  induction pairs as [|[k v] pairs IH]; intros acc Hnd Hacc; simpl.
  - now rewrite app_nil_r.
  - inversion Hnd as [|? ? Hni Hnd']; subst.
    unfold dict_set at 2. rewrite dict_upsert_new.
    + rewrite IH; [now rewrite <- app_assoc | assumption |].
      intros k' Hk' Hin. unfold dict_keys in Hin. rewrite map_app in Hin.
      apply in_app_or in Hin as [Hin|[E|[]]].
      * apply (Hacc k'); [now right | exact Hin].
      * simpl in E. injection E as ->. contradiction.
    + apply (dict_lookup_none key_eqb key_eqb_spec). apply Hacc. now left.
Qed.

Lemma dict_of_pairs_distinct (pairs : list (string * value)) :
  NoDup (map fst pairs) ->
  dict_of_pairs pairs = map (fun kv => (KStr (fst kv), snd kv)) pairs.
Proof.
  intros H. unfold dict_of_pairs. rewrite dict_of_pairs_from; auto.
Qed.

(** *** Arrays and objects *)

Lemma encode_list (lvl : nat) (x : value) (l : list value) (rest : string) :
  String.append (encode lvl (VList (x :: l))) rest
  = String "["
      (String.append (newline_indent (S lvl))
         (String.append
            (String.concat (item_separator (S lvl)) (map (encode (S lvl)) (x :: l)))
            (String.append (newline_indent lvl) (String "]" rest)))).
Proof.
  cbn [encode String.append]. f_equal.
  rewrite !append_assoc. reflexivity.
Qed.

Lemma encode_dict (lvl : nat) (kv : key * value) (d : list (key * value))
    (rest : string) :
  String.append (encode lvl (VDict (kv :: d))) rest
  = String "{"
      (String.append (newline_indent (S lvl))
         (String.append
            (String.concat (item_separator (S lvl))
               (map (encode_item (S lvl)) (kv :: d)))
            (String.append (newline_indent lvl) (String "}" rest)))).
Proof.
  cbn [encode String.append]. f_equal.
  rewrite !append_assoc. do 3 f_equal.
  apply map_ext. now intros [k x].
Qed.

Lemma scan_elements_encode (lvl : nat) (rest : string) :
  forall l fuel,
    (forall g, (g < fuel)%nat -> decodes_back g) ->
    l <> [] ->
    fold_right (fun x acc => plain_value x /\ acc) True l ->
    (fold_right (fun x acc => S (calls x + acc)) O l <= fuel)%nat ->
    scan_elements fuel
      (String.append
         (String.concat (item_separator (S lvl)) (map (encode (S lvl)) l))
         (String.append (newline_indent lvl) (String "]" rest)))
    = Some (map image l, rest).
Proof.
  induction l as [|x l IH]; intros fuel Hback Hne Hplain Hfuel; [congruence|].
  cbn [fold_right] in Hplain, Hfuel. destruct Hplain as [Hx Hl].
  destruct fuel as [|fuel]; [lia|].
  cbn [scan_elements]. destruct l as [|y l].
  - cbn [map String.concat].
    rewrite (Hback fuel); [|lia|assumption|simpl in Hfuel; lia|reflexivity].
    rewrite skip_ws_newline_indent. reflexivity.
  - cbn [map]. rewrite concat_cons2, !append_assoc.
    rewrite (Hback fuel); [|lia|assumption|lia|reflexivity].
    unfold item_separator at 1. cbn [String.append skip_ws]. ws_step.
    rewrite ?append_assoc, skip_ws_newline_indent.
    destruct (encode_head (S lvl) y) as (c & r & E & Hc).
    destruct (value_start_facts c Hc) as (Hws & _ & _).
    change (map (encode (S lvl)) (y :: l))
      with (encode (S lvl) y :: map (encode (S lvl)) l) in *.
    set (tail := String.append (newline_indent lvl) (String "]" rest)) in *.
    assert (Hskip : skip_ws (String.append
                      (String.concat (item_separator (S lvl))
                         (encode (S lvl) y :: map (encode (S lvl)) l)) tail)
                    = String.append
                        (String.concat (item_separator (S lvl))
                           (encode (S lvl) y :: map (encode (S lvl)) l)) tail).
    { destruct (map (encode (S lvl)) l) as [|z zs].
      - cbn [String.concat]. rewrite E. cbn [String.append].
        now apply skip_ws_start.
      - rewrite concat_cons2, E. cbn [String.append]. now apply skip_ws_start. }
    rewrite Hskip.
    rewrite (IH fuel); [reflexivity| | discriminate | assumption | lia].
    intros g Hg. apply Hback. lia.
Qed.

Lemma scan_members_encode (lvl : nat) (rest : string) :
  forall d fuel s,
    (forall g, (g < fuel)%nat -> decodes_back g) ->
    d <> [] ->
    fold_right (fun kv acc =>
                  match kv with
                  | (k, x) => plain (key_name k) = true /\ plain_value x /\ acc
                  end) True d ->
    (fold_right (fun kv acc => match kv with (_, x) => S (calls x + acc) end) O d
     <= fuel)%nat ->
    String quote s
    = String.append
        (String.concat (item_separator (S lvl)) (map (encode_item (S lvl)) d))
        (String.append (newline_indent lvl) (String "}" rest)) ->
    scan_members fuel s = Some (map image_pair d, rest).
Proof.
  induction d as [|[k x] d IH]; intros fuel s Hback Hne Hplain Hfuel Hs;
    [congruence|].
  cbn [fold_right] in Hplain, Hfuel. destruct Hplain as (Hk & Hx & Hd).
  destruct fuel as [|fuel]; [lia|].
  set (tail := String.append (newline_indent lvl) (String "}" rest)) in *.
  assert (Hitem : forall more,
            String.append (encode_item (S lvl) (k, x)) more
            = String quote
                (String.append (key_name k)
                   (String quote
                      (String ":" (String " "
                         (String.append (encode (S lvl) x) more)))))).
  { intros more. unfold encode_item. cbn [fst snd].
    rewrite (encode_str_plain _ Hk). cbn [String.append].
    rewrite !append_assoc. cbn [String.append]. reflexivity. }
  destruct (encode_head (S lvl) x) as (c & r & E & Hc).
  destruct (value_start_facts c Hc) as (Hws & _ & _).
  assert (Hval : forall more,
            skip_ws (String " " (String.append (encode (S lvl) x) more))
            = String.append (encode (S lvl) x) more).
  { intros more. cbn [skip_ws]. ws_step.
    rewrite E. cbn [String.append]. now apply skip_ws_start. }
  destruct d as [|kv d].
  - cbn [map String.concat] in Hs. rewrite Hitem in Hs.
    apply string_cons_inj in Hs. subst s.
    cbn [scan_members]. rewrite (scanstring_plain _ _ Hk).
    cbn [skip_ws]. ws_step. rewrite Hval.
    rewrite (Hback fuel); [|lia|assumption|simpl in Hfuel; lia|reflexivity].
    unfold tail. rewrite skip_ws_newline_indent. reflexivity.
  - cbn [map] in Hs. rewrite concat_cons2, !append_assoc, Hitem in Hs.
    apply string_cons_inj in Hs. subst s.
    cbn [scan_members]. rewrite (scanstring_plain _ _ Hk).
    cbn [skip_ws]. ws_step. rewrite Hval.
    rewrite (Hback fuel); [|lia|assumption|destruct kv; lia|reflexivity].
    rewrite skip_ws_separator. cbv iota. rewrite skip_ws_newline_indent.
    assert (Hq : exists s',
              String.append
                (String.concat (item_separator (S lvl))
                   (encode_item (S lvl) kv :: map (encode_item (S lvl)) d)) tail
              = String quote s').
    { destruct (encode_item_head (S lvl) kv) as [r' E'].
      destruct (map (encode_item (S lvl)) d) as [|z zs].
      - cbn [String.concat]. rewrite E'. cbn [String.append]. eauto.
      - rewrite concat_cons2, E'. cbn [String.append]. eauto. }
    destruct Hq as [s' Hs']. rewrite Hs'.
    cbn [skip_ws]. change (is_ws quote) with false. cbv iota.
    change ((quote =? quote)%char) with true. cbv iota.
    rewrite (IH fuel s'); [reflexivity| | discriminate | assumption
                           | destruct kv; lia | exact (eq_sym Hs')].
    intros g Hg. apply Hback. lia.
Qed.

Lemma repr_int_start (z : Z) :
  exists c r, repr_int z = String c r
              /\ ((c =? "-")%char || PyStr.isdecimal_char c) = true.
Proof.
  unfold repr_int. destruct (Z.ltb_spec z 0) as [Hneg|Hpos].
  - eexists _, _. split; reflexivity.
  - set (fuel := S (Z.to_nat (Z.log2 z))).
    assert (Hn : 0 <= z < 2 ^ Z.of_nat fuel)
      by (split; [lia | apply log2_fuel; lia]).
    destruct (decimal_digits fuel z Hn ltac:(unfold fuel; lia)) as (Hne & Hd & _).
    destruct (decimal fuel z) as [|c r]; [congruence|].
    exists c, r. split; [reflexivity|].
    cbn [PyStr.forallb_str] in Hd. apply andb_true_iff in Hd as [Hc _].
    rewrite Hc. apply orb_true_r.
Qed.

Lemma int_start_facts (c : ascii) :
  ((c =? "-")%char || PyStr.isdecimal_char c) = true ->
  (c =? quote)%char = false /\ (c =? "{")%char = false
  /\ (c =? "[")%char = false /\ (c =? "n")%char = false.
Proof.
  destruct c as [[] [] [] [] [] [] [] []]; vm_compute; intros H;
    try discriminate H; repeat split.
Qed.

Lemma scan_once_int (fuel : nat) (z : Z) (rest : string) :
  delimited rest = true ->
  scan_once (S fuel) (String.append (repr_int z) rest) = Some (VInt z, rest).
Proof.
  intros Hr. pose proof (scan_int_repr z rest Hr) as Hscan.
  destruct (repr_int_start z) as (c & r & E & Hc).
  destruct (int_start_facts c Hc) as (H1 & H2 & H3 & H4).
  rewrite E in *. cbn [String.append] in *. cbn [scan_once].
  now rewrite H1, H2, H3, H4, Hscan.
Qed.

Lemma concat_head (lvl : nat) (x : value) (l : list value) (tail : string) :
  exists c r,
    String.append
      (String.concat (item_separator lvl) (map (encode lvl) (x :: l))) tail
    = String c r
    /\ value_start c = true.
Proof.
  destruct (encode_head lvl x) as (c & r & E & Hc).
  cbn [map]. destruct (map (encode lvl) l) as [|z zs].
  - cbn [String.concat]. rewrite E. cbn [String.append]. eauto.
  - rewrite concat_cons2, E. cbn [String.append]. eauto.
Qed.

Lemma items_head (lvl : nat) (kv : key * value) (d : list (key * value))
    (tail : string) :
  exists r,
    String.append
      (String.concat (item_separator lvl) (map (encode_item lvl) (kv :: d))) tail
    = String quote r.
Proof.
  destruct (encode_item_head lvl kv) as [r E].
  cbn [map]. destruct (map (encode_item lvl) d) as [|z zs].
  - cbn [String.concat]. rewrite E. cbn [String.append]. eauto.
  - rewrite concat_cons2, E. cbn [String.append]. eauto.
Qed.

Lemma image_dict (d : list (key * value)) :
  NoDup (map (fun kv => key_name (fst kv)) d) ->
  VDict (dict_of_pairs (map image_pair d)) = image (VDict d).
Proof.
  intros Hnd. rewrite dict_of_pairs_distinct.
  - cbn [image]. f_equal. rewrite map_map. apply map_ext. now intros [k x].
  - rewrite map_map. exact Hnd.
Qed.

(** The decoder reads back what the encoder wrote, whatever follows. *)
Theorem scan_once_encode (fuel : nat) : decodes_back fuel.
Proof.
  induction fuel as [fuel IH] using lt_wf_ind.
  intros v lvl rest Hplain Hfuel Hrest.
  destruct fuel as [|fuel]; [destruct v; simpl in Hfuel; lia|].
  destruct v as [|z|s|[|x l]|[|kv d]].
  - reflexivity.
  - now apply scan_once_int.
  - cbn [plain_value] in Hplain. cbn [encode].
    rewrite (encode_str_plain s Hplain). cbn [String.append].
    rewrite append_assoc. cbn [String.append scan_once].
    change ((quote =? quote)%char) with true. cbv iota.
    now rewrite scanstring_plain.
  - reflexivity.
  - rewrite encode_list. cbn [scan_once].
    change (("[" =? quote)%char) with false.
    change (("[" =? "{")%char) with false.
    change (("[" =? "[")%char) with true. cbv iota.
    rewrite skip_ws_newline_indent.
    destruct (concat_head (S lvl) x l
                (String.append (newline_indent lvl) (String "]" rest)))
      as (c & r & E & Hc).
    destruct (value_start_facts c Hc) as (Hws & Hb & _).
    rewrite E, (skip_ws_start c r Hws), Hb, <- E.
    cbn [plain_value] in Hplain. cbn [calls] in Hfuel.
    rewrite (scan_elements_encode lvl rest (x :: l) fuel);
      [reflexivity | | discriminate | assumption | lia].
    intros g Hg. apply IH. lia.
  - reflexivity.
  - rewrite encode_dict. cbn [scan_once].
    change (("{" =? quote)%char) with false.
    change (("{" =? "{")%char) with true. cbv iota.
    rewrite skip_ws_newline_indent.
    destruct (items_head (S lvl) kv d
                (String.append (newline_indent lvl) (String "}" rest)))
      as (r & E).
    rewrite E. cbn [skip_ws]. change (is_ws quote) with false. cbv iota.
    change ((quote =? "}")%char) with false.
    change ((quote =? quote)%char) with true. cbv iota.
    cbn [plain_value] in Hplain. destruct Hplain as [Hnd Hitems].
    cbn [calls] in Hfuel.
    rewrite (scan_members_encode lvl rest (kv :: d) fuel r);
      [ | | discriminate | assumption | lia | exact (eq_sym E)].
    + now rewrite image_dict.
    + intros g Hg. apply IH. lia.
Qed.

(** *** The whole text *)

Lemma length_append (a b : string) :
  String.length (String.append a b) = (String.length a + String.length b)%nat.
Proof. induction a as [|c a IH]; simpl; [reflexivity | now rewrite IH]. Qed.

Lemma elements_length (lvl : nat) (bound : nat) :
  (forall v lvl', (calls v <= bound)%nat ->
                  (calls v <= String.length (encode lvl' v))%nat) ->
  forall l,
    (fold_right (fun x acc => S (calls x + acc)) O l <= bound)%nat ->
    (fold_right (fun x acc => S (calls x + acc)) O l
     <= String.length (String.concat (item_separator lvl) (map (encode lvl) l)) + 1)%nat.
Proof.
  intros Hb. induction l as [|x l IH]; intros Hl; cbn [fold_right] in *; [lia|].
  pose proof (Hb x lvl ltac:(lia)) as Hx.
  destruct l as [|y l].
  - cbn [map String.concat fold_right]. lia.
  - change (map (encode lvl) (x :: y :: l))
      with (encode lvl x :: encode lvl y :: map (encode lvl) l).
    rewrite concat_cons2, !length_append.
    change (encode lvl y :: map (encode lvl) l) with (map (encode lvl) (y :: l)).
    specialize (IH ltac:(lia)). unfold item_separator at 1. simpl String.length at 2.
    cbn [fold_right] in *. lia.
Qed.

Lemma items_length (lvl : nat) (bound : nat) :
  (forall v lvl', (calls v <= bound)%nat ->
                  (calls v <= String.length (encode lvl' v))%nat) ->
  forall d,
    (fold_right (fun kv acc => match kv with (_, x) => S (calls x + acc) end) O d
     <= bound)%nat ->
    (fold_right (fun kv acc => match kv with (_, x) => S (calls x + acc) end) O d
     <= String.length
          (String.concat (item_separator lvl) (map (encode_item lvl) d)) + 1)%nat.
Proof.
  intros Hb. induction d as [|[k x] d IH]; intros Hd; cbn [fold_right] in *; [lia|].
  pose proof (Hb x lvl ltac:(lia)) as Hx.
  assert (Hitem : (String.length (encode lvl x)
                   <= String.length (encode_item lvl (k, x)))%nat).
  { unfold encode_item. cbn [fst snd]. rewrite !length_append. lia. }
  destruct d as [|kv d].
  - cbn [map String.concat fold_right]. lia.
  - change (map (encode_item lvl) ((k, x) :: kv :: d))
      with (encode_item lvl (k, x) :: encode_item lvl kv :: map (encode_item lvl) d).
    rewrite concat_cons2, !length_append.
    change (encode_item lvl kv :: map (encode_item lvl) d)
      with (map (encode_item lvl) (kv :: d)).
    specialize (IH ltac:(lia)). unfold item_separator at 1. simpl String.length at 2.
    cbn [fold_right] in *. lia.
Qed.

Lemma calls_length_bound (bound : nat) :
  forall v lvl, (calls v <= bound)%nat ->
                (calls v <= String.length (encode lvl v))%nat.
Proof.
  induction bound as [|bound IH]; intros v lvl Hv;
    [destruct v; simpl in Hv; lia|].
  destruct v as [|z|s|[|x l]|[|kv d]]; try (simpl; lia).
  - destruct (repr_int_start z) as (c & r & E & _).
    cbn [encode calls]. rewrite E. simpl. lia.
  - pose proof (f_equal String.length (encode_list lvl x l EmptyString)) as E.
    rewrite append_nil_r in E. rewrite E. clear E.
    cbn [calls] in *. cbn [String.length]. rewrite !length_append.
    pose proof (elements_length (S lvl) bound IH (x :: l) ltac:(lia)).
    unfold newline_indent at 1. cbn [String.length]. lia.
  - pose proof (f_equal String.length (encode_dict lvl kv d EmptyString)) as E.
    rewrite append_nil_r in E. rewrite E. clear E.
    cbn [calls] in *. cbn [String.length]. rewrite !length_append.
    pose proof (items_length (S lvl) bound IH (kv :: d) ltac:(lia)).
    unfold newline_indent at 1. cbn [String.length]. lia.
Qed.

(** Reading back the text written for a value gives the value with the
    keys of its dicts turned into their names. *)
Theorem loads_dumps (v : value) :
  plain_value v -> loads (dumps v) = Some (image v).
Proof.
  intros Hplain. unfold loads, dumps.
  destruct (encode_head 0 v) as (c & r & E & Hc).
  destruct (value_start_facts c Hc) as (Hws & _ & _).
  assert (Hskip : skip_ws (encode 0 v) = encode 0 v)
    by (rewrite E; now apply skip_ws_start).
  rewrite Hskip.
  pose proof (scan_once_encode (S (String.length (encode 0 v))) v 0%nat EmptyString
                Hplain) as H.
  rewrite append_nil_r in H. rewrite H; [reflexivity| |reflexivity].
  pose proof (calls_length_bound (calls v) v 0%nat (Nat.le_refl _)). lia.
Qed.

(** *** The summary of the posts analyzer *)

Lemma word_char_plain (c : ascii) : is_word_char c = true -> plain_char c = true.
Proof.
  destruct c as [[] [] [] [] [] [] [] []]; vm_compute; intros H;
    try discriminate H; reflexivity.
Qed.

Lemma findall_words_chars (s : string) :
  forall cur,
    PyStr.forallb_str is_word_char cur = true ->
    Forall (fun w => PyStr.forallb_str is_word_char w = true) (findall_words cur s).
Proof.
  assert (Hemit : forall cur, PyStr.forallb_str is_word_char cur = true ->
            Forall (fun w => PyStr.forallb_str is_word_char w = true) (emit cur)).
  { intros [|c cur] H; simpl; constructor; [exact H | constructor]. }
  induction s as [|c s IH]; intros cur Hcur; cbn [findall_words].
  - now apply Hemit.
  - destruct (is_word_char c) eqn:Hc.
    + apply IH. rewrite forallb_str_append, Hcur. simpl. now rewrite Hc.
    + apply Forall_app. split; [now apply Hemit | now apply IH].
Qed.

Lemma tokenize_plain (text : string) :
  Forall (fun w => plain w = true) (tokenize text).
Proof.
  unfold tokenize.
  pose proof (findall_words_chars (PyStr.lower text) EmptyString eq_refl) as H.
  rewrite Forall_forall in *. intros w Hw. unfold plain.
  apply (forallb_str_impl is_word_char); [exact word_char_plain | now apply H].
Qed.

Lemma repr_int_plain (z : Z) : plain (repr_int z) = true.
Proof.
  assert (Hd : forall s, PyStr.forallb_str PyStr.isdecimal_char s = true ->
                         plain s = true).
  { intros s. unfold plain. apply forallb_str_impl.
    intros c. destruct c as [[] [] [] [] [] [] [] []]; vm_compute; intros H;
      try discriminate H; reflexivity. }
  unfold repr_int. destruct (Z.ltb_spec z 0) as [Hneg|Hpos].
  - set (fuel := S (Z.to_nat (Z.log2 (- z)))).
    assert (Hn : 0 <= - z < 2 ^ Z.of_nat fuel)
      by (split; [lia | apply log2_fuel; lia]).
    destruct (decimal_digits fuel (- z) Hn ltac:(unfold fuel; lia)) as (_ & H & _).
    unfold plain. cbn [PyStr.forallb_str]. apply Hd in H. unfold plain in H.
    now rewrite H.
  - set (fuel := S (Z.to_nat (Z.log2 z))).
    assert (Hn : 0 <= z < 2 ^ Z.of_nat fuel)
      by (split; [lia | apply log2_fuel; lia]).
    destruct (decimal_digits fuel z Hn ltac:(unfold fuel; lia)) as (_ & H & _).
    now apply Hd.
Qed.

Lemma repr_int_inj (a b : Z) : repr_int a = repr_int b -> a = b.
Proof.
  intros E.
  pose proof (scan_int_repr a EmptyString eq_refl) as Ha.
  pose proof (scan_int_repr b EmptyString eq_refl) as Hb.
  rewrite E in Ha. congruence.
Qed.

Lemma userId_key_name_inj (u u' : option Z) :
  key_name (userId_key u) = key_name (userId_key u') -> u = u'.
Proof.
  assert (Hnull : forall z, repr_int z <> "null").
  { intros z E. destruct (repr_int_start z) as (c & r & Ec & Hc).
    destruct (int_start_facts c Hc) as (_ & _ & _ & Hn).
    rewrite E in Ec. injection Ec as <- _. discriminate Hn. }
  destruct u as [z|], u' as [z'|]; simpl; intros E.
  - f_equal. now apply repr_int_inj.
  - now apply Hnull in E.
  - symmetry in E. now apply Hnull in E.
  - reflexivity.
Qed.

Lemma userId_key_name_plain (u : option Z) :
  plain (key_name (userId_key u)) = true.
Proof. destruct u as [z|]; [apply repr_int_plain | reflexivity]. Qed.

Lemma userId_eqb_spec (a b : option Z) : reflect (a = b) (userId_eqb a b).
Proof.
  destruct a as [x|], b as [y|]; simpl; try (constructor; congruence).
  destruct (Z.eqb_spec x y); constructor; congruence.
Qed.

Lemma NoDup_map_inj {A B : Type} (f : A -> B) (l : list A) :
  (forall a b, f a = f b -> a = b) -> NoDup l -> NoDup (map f l).
Proof.
  intros Hinj. induction 1 as [|x l Hx Hl IH]; simpl; constructor; auto.
  intros H. apply in_map_iff in H as (y & E & Hy).
  apply Hinj in E. now subst.
Qed.

Lemma summary_value_plain (s : PostsSummary) :
  dict_wf (posts_per_user s) ->
  Forall (fun tw => plain (word tw) = true) (top_words s) ->
  plain_value (summary_value s).
Proof.
  intros Hwf Hwords. unfold summary_value. cbn [plain_value fold_right].
  split; [repeat constructor; simpl; intuition discriminate|].
  repeat split.
  - rewrite map_map. cbn [fst].
    rewrite <- (map_map fst (fun u => key_name (userId_key u))).
    apply NoDup_map_inj; [exact userId_key_name_inj | exact Hwf].
  - clear Hwf. induction (posts_per_user s) as [|[u c] l IH];
      cbn [map fold_right fst snd].
    + exact I.
    + repeat split; [apply userId_key_name_plain | exact IH].
  - induction Hwords as [|tw l Htw _ IH]; cbn [map fold_right].
    + exact I.
    + split; [|exact IH]. cbn [plain_value fold_right map fst].
      split; [repeat constructor; simpl; intuition discriminate|].
      repeat split. exact Htw.
Qed.

Lemma process_posts_plain (posts : list Post) :
  plain_value (summary_value (process_posts posts)).
Proof.
  apply summary_value_plain.
  - apply (Counter_wf userId_eqb userId_eqb_spec).
  - unfold process_posts, most_common, posts_words. cbn [top_words].
    rewrite Forall_forall. intros tw Htw.
    apply in_map_iff in Htw as ([w c] & <- & Hin). cbn [word fst].
    assert (Hin' : In (w, c) (by_count_desc
                     (Counter String.eqb
                        (filter (fun w0 => 3 <? str_len w0)
                           (tokenize (all_text posts)))))).
    { rewrite <- (firstn_skipn 15 (by_count_desc _)). apply in_or_app. now left. }
    clear Hin. apply (Permutation_in _ (sorted_perm _ _)) in Hin'.
    apply Counter_keys_in in Hin'. cbn [fst] in Hin'.
    apply filter_In in Hin' as [Hin' _].
    pose proof (tokenize_plain (all_text posts)) as Hall.
    rewrite Forall_forall in Hall. now apply Hall.
Qed.

(** C3. Reading back the JSON text written for the summary of the posts
    analyzer gives the summary in which every key of [posts_per_user] is
    the str that names it (the decimal digits of an int, [null] for
    [None]); [post_count] and [top_words] are read back as they were. *)
Theorem write_json_read_back (posts : list Post) :
  let s := process_posts posts in
  loads (write_json (summary_value s))
  = Some (VDict
            [ (KStr "post_count", VInt (post_count s));
              (KStr "posts_per_user",
                VDict (map (fun uc => (KStr (key_name (userId_key (fst uc))),
                                       VInt (snd uc)))
                         (posts_per_user s)));
              (KStr "top_words",
                VList (map (fun tw => VDict [ (KStr "word", VStr (word tw));
                                              (KStr "count", VInt (count tw)) ])
                         (top_words s))) ]).
Proof.
  intros s. unfold write_json. subst s.
  rewrite (loads_dumps _ (process_posts_plain posts)).
  unfold summary_value. cbn [image map key_name].
  rewrite !map_map. reflexivity.
Qed.

(** C3, as stated, fails: for a single post of user 1 the value read back
    has the key ["1"] where the summary has the key [1], and the two do
    not compare equal. *)
Lemma write_json_round_trip_fails :
  ~ (forall posts : list Post,
       exists v,
         loads (write_json (summary_value (process_posts posts))) = Some v
         /\ py_eq v (summary_value (process_posts posts)) = true).
Proof.
  intros H.
  destruct (H [mkPost (Some 1) (Some "hello") (Some "world")]) as (v & Hv & Heq).
  vm_compute in Hv. injection Hv as <-. vm_compute in Heq. discriminate Heq.
Qed.

(* ================================================================== *)
(** * Further properties *)

(** ** The tokenizer *)

Lemma lower_char_not_upper (c : ascii) :
  PyStr.between 65 90 (PyStr.lower_char c) = false.
Proof. destruct c as [[] [] [] [] [] [] [] []]; reflexivity. Qed.

Lemma lower_char_keeps_nonword (c : ascii) :
  is_word_char c = false -> is_word_char (PyStr.lower_char c) = false.
Proof.
  destruct c as [[] [] [] [] [] [] [] []]; vm_compute; intros H;
    try discriminate H; reflexivity.
Qed.

Lemma token_char_of_word_char (c : ascii) :
  is_word_char c = true -> PyStr.between 65 90 c = false ->
  is_token_char c = true.
Proof.
  unfold is_word_char, is_token_char. intros H Hup. rewrite Hup in H.
  now rewrite orb_false_r in H.
Qed.

Lemma lower_append (a b : string) :
  PyStr.lower (String.append a b)
  = String.append (PyStr.lower a) (PyStr.lower b).
Proof. induction a as [|c a IH]; simpl; [reflexivity | now rewrite IH]. Qed.


Lemma lower_no_upper (s : string) :
  PyStr.forallb_str (fun c => negb (PyStr.between 65 90 c)) (PyStr.lower s) = true.
Proof.
  induction s as [|c s IH]; simpl; [reflexivity|].
  now rewrite lower_char_not_upper, IH.
Qed.

(** Every token is made of characters of the text, and is not empty. *)
Lemma findall_words_from (q : ascii -> bool) (s : string) :
  PyStr.forallb_str q s = true ->
  forall cur, PyStr.forallb_str q cur = true ->
    Forall (fun w => w <> EmptyString /\ PyStr.forallb_str q w = true)
      (findall_words cur s).
Proof.
  assert (Hemit : forall cur, PyStr.forallb_str q cur = true ->
            Forall (fun w => w <> EmptyString /\ PyStr.forallb_str q w = true)
              (emit cur)).
  { intros [|c cur] H; simpl; constructor; [|constructor].
    split; [discriminate | exact H]. }
  induction s as [|c s IH]; intros Hs cur Hcur; cbn [findall_words].
  - now apply Hemit.
  - cbn [PyStr.forallb_str] in Hs. apply andb_true_iff in Hs as [Hc Hs].
    destruct (is_word_char c).
    + apply IH; [assumption|].
      rewrite forallb_str_append, Hcur. simpl. now rewrite Hc.
    + apply Forall_app. split; [now apply Hemit | now apply IH].
Qed.

(** X1. Every token is a non-empty str of lower-case letters [a-z] and
    apostrophes: an upper-case letter never reaches the word list. *)
Theorem tokenize_tokens (text : string) :
  Forall (fun w => w <> EmptyString
                   /\ PyStr.forallb_str is_token_char w = true)
    (tokenize text).
Proof.
  unfold tokenize.
  pose proof (findall_words_from _ _ (lower_no_upper text) EmptyString eq_refl) as Hup.
  pose proof (findall_words_chars (PyStr.lower text) EmptyString eq_refl) as Hw.
  rewrite Forall_forall in *. intros w Hin.
  destruct (Hup w Hin) as [Hne Hu]. specialize (Hw w Hin). split; [assumption|].
  clear Hin Hne. induction w as [|c w IH]; [reflexivity|].
  cbn [PyStr.forallb_str] in *.
  apply andb_true_iff in Hu as [Hc Hu], Hw as [Hc' Hw].
  apply negb_true_iff in Hc.
  now rewrite (token_char_of_word_char c Hc' Hc), IH.
Qed.

Lemma findall_words_sep (sep : ascii) (b : string) :
  is_word_char sep = false ->
  forall a cur,
    findall_words cur (String.append a (String sep b))
    = findall_words cur a ++ findall_words EmptyString b.
Proof.
  intros Hsep. induction a as [|c a IH]; intros cur; cbn [String.append findall_words].
  - now rewrite Hsep.
  - destruct (is_word_char c); [apply IH|].
    now rewrite IH, app_assoc.
Qed.

(** The tokens of two texts joined by a character that is not a word
    character are the tokens of the one, then those of the other. *)
Lemma tokenize_sep (sep : ascii) (a b : string) :
  is_word_char sep = false ->
  tokenize (String.append a (String sep b)) = tokenize a ++ tokenize b.
Proof.
  intros Hsep. unfold tokenize. rewrite lower_append. cbn [PyStr.lower].
  apply findall_words_sep. now apply lower_char_keeps_nonword.
Qed.

(** X2. The words the posts analyzer ranks are read post by post: the
    tokens of the joined text are the tokens of each title followed by
    those of its body, in the order of the posts; no word runs across a
    title, a body or a post. *)
Theorem all_text_tokens (posts : list Post) :
  tokenize (all_text posts) = flat_map post_tokens posts.
Proof.
  unfold all_text.
  induction posts as [|p posts IH]; [reflexivity|].
  assert (Hp : tokenize (post_text p) = post_tokens p).
  { unfold post_text, post_tokens. cbn [String.append].
    now apply tokenize_sep. }
  destruct posts as [|p' posts].
  - cbn [map String.concat flat_map]. now rewrite app_nil_r.
  - change (map post_text (p :: p' :: posts))
      with (post_text p :: map post_text (p' :: posts)).
    cbn [map] in *. rewrite concat_cons2. cbn [String.append].
    rewrite tokenize_sep by reflexivity.
    cbn [flat_map] in *. now rewrite Hp, IH.
Qed.




(** ** Counting *)

Section CounterLookup.
Context {K : Type}.
Variable eqb : K -> K -> bool.
Hypothesis eqb_spec : forall a b, reflect (a = b) (eqb a b).

Lemma occurrences_nonneg (k : K) (l : list K) : 0 <= occurrences eqb k l.
Proof. unfold occurrences, len. lia. Qed.

Lemma occurrences_cons (k x : K) (l : list K) :
  occurrences eqb k (x :: l)
  = (if eqb k x then 1 else 0) + occurrences eqb k l.
Proof.
  unfold occurrences, len. cbn [filter].
  destruct (eqb k x); cbn [List.length]; lia.
Qed.

Lemma occurrences_pos (k : K) (l : list K) :
  In k l <-> 0 < occurrences eqb k l.
Proof.
  induction l as [|x l IH]; [simpl; unfold occurrences, len; simpl; lia|].
  rewrite occurrences_cons. pose proof (occurrences_nonneg k l).
  simpl. destruct (eqb_spec k x) as [->|Hne].
  - split; [lia | now left].
  - rewrite IH. split; [intros [E|H']; [congruence | lia] | intros H'; right; lia].
Qed.

Lemma counter_from_lookup (l : list K) :
  forall (c : list (K * Z)) (k : K),
    dict_lookup eqb (fold_left (counter_add eqb) l c) k
    = match dict_lookup eqb c k with
      | Some n => Some (n + occurrences eqb k l)
      | None => if occurrences eqb k l =? 0 then None
                else Some (occurrences eqb k l)
      end.
Proof.
  induction l as [|x l IH]; intros c k; cbn [fold_left].
  - unfold occurrences, len. simpl.
    destruct (dict_lookup eqb c k); [f_equal; lia | reflexivity].
  - rewrite IH, occurrences_cons. pose proof (occurrences_nonneg k l) as Hpos.
    unfold counter_add. destruct (eqb_spec k x) as [<-|Hne].
    + rewrite (dict_lookup_upsert_same eqb eqb_spec).
      destruct (dict_lookup eqb c k); [f_equal; lia|].
      destruct (Z.eqb_spec (1 + occurrences eqb k l) 0); [lia | f_equal; lia].
    + rewrite (dict_lookup_upsert_other eqb eqb_spec) by congruence. reflexivity.
Qed.

(** What a counter holds for a key: the number of its occurrences, and
    nothing for a key that does not occur. *)
Lemma Counter_lookup (l : list K) (k : K) :
  dict_lookup eqb (Counter eqb l) k
  = if occurrences eqb k l =? 0 then None else Some (occurrences eqb k l).
Proof. unfold Counter. now rewrite counter_from_lookup. Qed.

Lemma Counter_in (l : list K) (k : K) (n : Z) :
  In (k, n) (Counter eqb l) -> In k l /\ n = occurrences eqb k l /\ 1 <= n.
Proof.
  intros H.
  apply (dict_in_lookup eqb eqb_spec _ _ _ (Counter_wf eqb eqb_spec l)) in H.
  rewrite Counter_lookup in H.
  destruct (Z.eqb_spec (occurrences eqb k l) 0) as [E|Hne]; [discriminate|].
  injection H as <-. pose proof (occurrences_nonneg k l).
  repeat split; [apply occurrences_pos; lia | lia].
Qed.

Lemma Counter_has (l : list K) (k : K) :
  In k l -> In (k, occurrences eqb k l) (Counter eqb l).
Proof.
  intros H. apply (dict_lookup_in eqb eqb_spec). rewrite Counter_lookup.
  apply occurrences_pos in H.
  destruct (Z.eqb_spec (occurrences eqb k l) 0); [lia | reflexivity].
Qed.
End CounterLookup.

(** X4. [posts_per_user] maps every identifier that some post carries to
    the number of posts that carry it, has no other key, and has no key
    twice. *)
Theorem posts_per_user_counts (posts : list Post) (u : option Z) :
  let n := occurrences userId_eqb u (map userId posts) in
  dict_wf (posts_per_user (process_posts posts))
  /\ dict_lookup userId_eqb (posts_per_user (process_posts posts)) u
     = if n =? 0 then None else Some n.
Proof.
  cbn zeta. unfold process_posts. cbn [posts_per_user]. split.
  - apply (Counter_wf userId_eqb userId_eqb_spec).
  - apply (Counter_lookup userId_eqb userId_eqb_spec).
Qed.

Lemma StronglySorted_app_order {A : Type} (R : A -> A -> Prop) (l1 l2 : list A) :
  StronglySorted R (l1 ++ l2) ->
  forall a b, In a l1 -> In b l2 -> R a b.
Proof.
  induction l1 as [|x l1 IH]; intros Hs a b Ha Hb; [destruct Ha|].
  simpl in Hs. apply StronglySorted_inv in Hs as [Hs Hx].
  destruct Ha as [<-|Ha]; [|now apply IH].
  rewrite Forall_forall in Hx. apply Hx, in_or_app. now right.
Qed.

(** The entries of a ranking carry the true counts, and what is left out
    of a full ranking occurs no more often than what is in it. *)
Lemma most_common_counts (cap : nat) (ws : list string) :
  let top := most_common cap (Counter String.eqb ws) in
  (forall w c, In (w, c) top ->
     In w ws /\ c = occurrences String.eqb w ws /\ 1 <= c)
  /\ (forall w, In w ws -> ~ In w (map fst top) ->
        List.length top = cap
        /\ forall w' c', In (w', c') top -> occurrences String.eqb w ws <= c').
Proof.
  cbn zeta. unfold most_common.
  set (c := Counter String.eqb ws). set (srt := by_count_desc c).
  assert (Hperm : Permutation srt c) by apply sorted_perm.
  split.
  - intros w n Hin.
    assert (Hin' : In (w, n) srt)
      by (rewrite <- (firstn_skipn cap srt); apply in_or_app; now left).
    apply (Permutation_in _ Hperm) in Hin'.
    now apply (Counter_in String.eqb String.eqb_spec).
  - intros w Hw Hout.
    pose proof (Counter_has String.eqb String.eqb_spec ws w Hw) as Hc.
    apply (Permutation_in _ (Permutation_sym Hperm)) in Hc.
    rewrite <- (firstn_skipn cap srt) in Hc.
    apply in_app_or in Hc as [Hc|Hc];
      [exfalso; apply Hout; now apply (in_map fst) in Hc|].
    split.
    + apply firstn_length_le.
      destruct (Nat.le_gt_cases cap (List.length srt)) as [Hle|Hgt]; [assumption|].
      rewrite skipn_all2 in Hc by lia. destruct Hc.
    + intros w' c' Hin.
      pose proof (by_count_desc_sorted c) as Hs. fold srt in Hs.
      rewrite <- (firstn_skipn cap srt) in Hs.
      exact (StronglySorted_app_order _ _ _ Hs _ _ Hin Hc).
Qed.

(** X5. Each entry of a top-word list carries the number of times its word
    occurs among the words that qualify, which is at least one; the word
    is a token of more than 3 characters for the posts analyzer, of more
    than 4 for the text metrics. *)
Theorem top_words_counts (posts : list Post) (text : string) :
  (forall tw, In tw (top_words (process_posts posts)) ->
     In (word tw) (tokenize (all_text posts))
     /\ 3 < str_len (word tw)
     /\ count tw = occurrences String.eqb (word tw) (posts_words posts)
     /\ 1 <= count tw)
  /\ (forall w c, In (w, c) (text_top_words (process_text_report text)) ->
        In w (tokenize text)
        /\ 4 < str_len w
        /\ c = occurrences String.eqb w
                 (filter (fun w0 => 4 <? str_len w0) (tokenize text))
        /\ 1 <= c).
Proof.
  split.
  - intros tw Hin. unfold process_posts in Hin. cbn [top_words] in Hin.
    apply in_map_iff in Hin as ([w c] & <- & Hin). cbn [word count fst snd].
    apply (proj1 (most_common_counts 15 (posts_words posts))) in Hin
      as (Hw & Hc & Hpos).
    unfold posts_words in Hw at 1. apply filter_In in Hw as [Hw Hlen].
    apply Z.ltb_lt in Hlen. auto.
  - intros w c Hin. unfold process_text_report in Hin. cbn [text_top_words] in Hin.
    apply (proj1 (most_common_counts 20 _)) in Hin as (Hw & Hc & Hpos).
    apply filter_In in Hw as [Hw Hlen]. apply Z.ltb_lt in Hlen. auto.
Qed.

(** X6. The top-word lists hold the most frequent words: a qualifying word
    that is left out occurs no more often than any listed word, and then
    the list is full (15 entries for posts, 20 for text). *)
Theorem top_words_most_frequent (posts : list Post) (text : string) :
  (forall w, In w (posts_words posts) ->
     ~ In w (map word (top_words (process_posts posts))) ->
     List.length (top_words (process_posts posts)) = 15%nat
     /\ forall tw, In tw (top_words (process_posts posts)) ->
          occurrences String.eqb w (posts_words posts) <= count tw)
  /\ (forall w, In w (tokenize text) -> 4 < str_len w ->
        ~ In w (map fst (text_top_words (process_text_report text))) ->
        List.length (text_top_words (process_text_report text)) = 20%nat
        /\ forall w' c', In (w', c') (text_top_words (process_text_report text)) ->
             occurrences String.eqb w
               (filter (fun w0 => 4 <? str_len w0) (tokenize text)) <= c').
Proof.
  split.
  - intros w Hw Hout. unfold process_posts in *. cbn [top_words] in *.
    rewrite map_map in Hout. cbn [word] in Hout.
    destruct (proj2 (most_common_counts 15 (posts_words posts)) w Hw Hout)
      as [Hlen Hdom].
    split; [now rewrite length_map|].
    intros tw Hin. apply in_map_iff in Hin as ([w' c'] & <- & Hin).
    cbn [count snd]. exact (Hdom w' c' Hin).
  - intros w Hw Hlen Hout. unfold process_text_report in *.
    cbn [text_top_words] in *.
    apply (proj2 (most_common_counts 20 _) w); [|assumption].
    apply filter_In. split; [assumption | now apply Z.ltb_lt].
Qed.

(** ** The tabular aggregator: columns, errors and row order *)










Lemma collect_row_same (years : list string) (r r' : TableRow) :
  same_cells years r r' ->
  forall per, collect_row r years per = collect_row r' years per.
Proof.
  induction years as [|y0 years IH]; intros Hsame per; [reflexivity|].
  simpl. rewrite (Hsame y0 (or_introl eq_refl)).
  assert (Hrest : same_cells years r r')
    by (intros y Hy; apply Hsame; now right).
  destruct (PyStr.isdigit (cell_text r' y0)); [|now apply IH].
  destruct (PyStr.int (cell_text r' y0)); simpl; [now apply IH | reflexivity].
Qed.

(** X9. Only the columns of the first row are read: two inputs with the
    same first row whose later rows hold the same trimmed text in every
    numeric column of that row give the same result, whatever else the
    later rows contain. *)
Theorem process_airtravel_first_row_columns
    (row0 : TableRow) (rest rest' : list TableRow) :
  Forall2 (same_cells (numeric_columns row0)) rest rest' ->
  process_airtravel (row0 :: rest) = process_airtravel (row0 :: rest').
Proof.
  intros Hsame. unfold process_airtravel. f_equal.
  cbn [collect_rows].
  destruct (collect_row row0 (numeric_columns row0) []) as [per|e]; [|reflexivity].
  cbn [bind]. revert per.
  induction Hsame as [|r r' rest rest' Hr _ IH]; intros per; [reflexivity|].
  cbn [collect_rows]. rewrite (collect_row_same _ _ _ Hr).
  destruct (collect_row r' (numeric_columns row0) per); [apply IH | reflexivity].
Qed.

(** X9, for a second row that has a column the first row lacks. *)
Lemma process_airtravel_first_row_columns_witness :
  process_airtravel
    [ [("Month", "JAN"); ("1958", "340")];
      [("Month", "FEB"); ("1958", "318")] ]
  = process_airtravel
      [ [("Month", "JAN"); ("1958", "340")];
        [("Month", "FEB"); ("1958", "318"); ("1959", "342")] ].
Proof.
  apply (process_airtravel_first_row_columns
           [("Month", "JAN"); ("1958", "340")]
           [[("Month", "FEB"); ("1958", "318")]]
           [[("Month", "FEB"); ("1958", "318"); ("1959", "342")]]).
  constructor; [|constructor].
  intros y [<-|[]]. reflexivity.
Defined.

Lemma collect_rows_result (row0 : TableRow) (rest : list TableRow)
    (summary : YearlySummary) :
  process_airtravel (row0 :: rest) = Ok summary ->
  exists per,
    collect_rows (row0 :: rest) (numeric_columns row0) [] = Ok per
    /\ summarize_all per = Ok summary
    /\ dict_wf per
    /\ dict_keys summary = dict_keys per.
Proof.
  unfold process_airtravel. intros H.
  destruct (collect_rows (row0 :: rest) (numeric_columns row0) []) as [per|e] eqn:Hc;
    cbn [bind] in H; [|discriminate].
  exists per. repeat split; try assumption.
  - apply (collect_rows_keys _ _ _ _ Hc); constructor.
  - now apply summarize_all_keys.
Qed.

Lemma summary_key_is_column (row0 : TableRow) (rest : list TableRow)
    (summary : YearlySummary) (y : string) :
  process_airtravel (row0 :: rest) = Ok summary ->
  In y (dict_keys summary) -> In y (numeric_columns row0).
Proof.
  intros H Hy. destruct (collect_rows_result _ _ _ H) as (per & Hc & _ & _ & Hk).
  rewrite Hk in Hy.
  now destruct (collect_rows_key_origin _ _ _ _ Hc y Hy) as [[]|[Hin _]].
Qed.

Lemma filter_length_bound {A : Type} (f : A -> bool) (l : list A) :
  (List.length (filter f l) <= List.length l)%nat.
Proof.
  induction l as [|x l IH]; simpl; [lia|]. destruct (f x); simpl; lia.
Qed.

(** X10. The summary of a dict-shaped first row is itself a proper dict,
    with no year twice, and every entry counts at least one and at most as
    many months as there are rows. *)
Theorem months_counted_bounds
    (row0 : TableRow) (rest : list TableRow) (summary : YearlySummary) :
  dict_wf row0 ->
  process_airtravel (row0 :: rest) = Ok summary ->
  dict_wf summary
  /\ forall y st, In (y, st) summary ->
       1 <= months_counted st <= len (row0 :: rest).
Proof.
  intros Hwf H.
  destruct (collect_rows_result _ _ _ H) as (per & Hc & Hs & Hper & Hk).
  assert (Hsum : dict_wf summary) by (unfold dict_wf; now rewrite Hk).
  split; [assumption|]. intros y st Hin.
  assert (Hy : In y (numeric_columns row0)).
  { apply (summary_key_is_column row0 rest summary); [assumption|].
    now apply (in_map fst) in Hin. }
  apply (dict_in_lookup String.eqb String.eqb_spec _ _ _ Hsum) in Hin.
  destruct (process_airtravel_column row0 rest summary y Hwf H Hy) as [Hzero Hpos].
  destruct (Z.eq_dec (len (decimal_rows (row0 :: rest) y)) 0) as [E|Hne].
  - rewrite (Hzero E) in Hin. discriminate.
  - destruct (Hpos Hne) as (avg & Hl & _). rewrite Hl in Hin.
    pose proof (filter_length_bound
                  (fun row => PyStr.isdecimal (cell_text row y)) (row0 :: rest))
      as Hle.
    fold (decimal_rows (row0 :: rest) y) in Hle.
    set (dr := decimal_rows (row0 :: rest) y) in *.
    set (rows := row0 :: rest) in *.
    injection Hin as <-. unfold months_counted, len in *. lia.
Qed.

(** X10, on two rows of one numeric column. *)
Lemma months_counted_bounds_witness :
  dict_wf [("1958", mkStats 2 658 (PyInt 329))]
  /\ forall y st, In (y, st) [("1958", mkStats 2 658 (PyInt 329))] ->
       1 <= months_counted st
         <= len [ [("Month", "JAN"); ("1958", "340")];
                  [("Month", "FEB"); ("1958", "318")] ].
Proof.
  apply (months_counted_bounds
           [("Month", "JAN"); ("1958", "340")]
           [[("Month", "FEB"); ("1958", "318")]]).
  - repeat constructor; simpl; intuition discriminate.
  - reflexivity.
Defined.

Lemma Permutation_filter_both {A : Type} (f : A -> bool) (l l' : list A) :
  Permutation l l' -> Permutation (filter f l) (filter f l').
Proof.
  induction 1 as [|x l l' _ IH|x y l|l l' l'' _ IH1 _ IH2]; simpl.
  - constructor.
  - destruct (f x); [now constructor | assumption].
  - destruct (f x), (f y); try reflexivity. apply perm_swap.
  - now transitivity (filter f l').
Qed.

Lemma sum_perm (l l' : list Z) :
  Permutation l l' -> PyNum.sum l = PyNum.sum l'.
Proof.
  induction 1 as [|x l l' _ IH|x y l|l l' l'' _ IH1 _ IH2].
  - reflexivity.
  - unfold PyNum.sum in *. simpl. rewrite !(sum_from _ x).
    unfold PyNum.sum. now rewrite IH.
  - unfold PyNum.sum. simpl. rewrite !sum_from. lia.
  - congruence.
Qed.

(** X11. The order of the rows after the first does not change the mapping
    computed: when two inputs with the same first row differ by a
    permutation of the later rows and both are summarized, every year has
    the same entry in both summaries (or none in both). *)
Theorem process_airtravel_row_order
    (row0 : TableRow) (rest rest' : list TableRow) (s s' : YearlySummary) :
  dict_wf row0 ->
  Permutation rest rest' ->
  process_airtravel (row0 :: rest) = Ok s ->
  process_airtravel (row0 :: rest') = Ok s' ->
  forall y, dict_lookup String.eqb s y = dict_lookup String.eqb s' y.
Proof.
  intros Hwf Hperm H H' y.
  destruct (in_dec string_dec y (numeric_columns row0)) as [Hy|Hn].
  - destruct (process_airtravel_column row0 rest s y Hwf H Hy) as [Hz Hp].
    destruct (process_airtravel_column row0 rest' s' y Hwf H' Hy) as [Hz' Hp'].
    assert (Hrows : Permutation (decimal_rows (row0 :: rest) y)
                      (decimal_rows (row0 :: rest') y))
      by (apply Permutation_filter_both; now constructor).
    assert (Hn : len (decimal_rows (row0 :: rest) y)
                 = len (decimal_rows (row0 :: rest') y))
      by (unfold len; now rewrite (Permutation_length Hrows)).
    assert (Ht : PyNum.sum (decimal_values (row0 :: rest) y)
                 = PyNum.sum (decimal_values (row0 :: rest') y))
      by (apply sum_perm; unfold decimal_values; now apply Permutation_map).
    cbv zeta in Hz, Hp, Hz', Hp'.
    rewrite <- Hn in Hz'. rewrite <- Hn, <- Ht in Hp'.
    destruct (Z.eq_dec (len (decimal_rows (row0 :: rest) y)) 0) as [E|Hne].
    + now rewrite (Hz E), (Hz' E).
    + destruct (Hp Hne) as (avg & Hl & Ha), (Hp' Hne) as (avg' & Hl' & Ha').
      rewrite Hl, Hl'. congruence.
  - assert (Hnone : forall rs sm, process_airtravel (row0 :: rs) = Ok sm ->
                                  dict_lookup String.eqb sm y = None).
    { intros rs sm Hsm. apply (dict_lookup_none String.eqb String.eqb_spec).
      intros Hk. apply Hn. now apply (summary_key_is_column row0 rs sm). }
    now rewrite (Hnone _ _ H), (Hnone _ _ H').
Qed.

(** X11, on two later rows exchanged. *)
Lemma process_airtravel_row_order_witness :
  dict_lookup String.eqb [("1958", mkStats 3 6 (PyInt 2))] "1958"
  = dict_lookup String.eqb [("1958", mkStats 3 6 (PyInt 2))] "1958".
Proof.
  apply (process_airtravel_row_order
           [("Month", "JAN"); ("1958", "1")]
           [[("Month", "FEB"); ("1958", "2")]; [("Month", "MAR"); ("1958", "3")]]
           [[("Month", "MAR"); ("1958", "3")]; [("Month", "FEB"); ("1958", "2")]]
           [("1958", mkStats 3 6 (PyInt 2))]
           [("1958", mkStats 3 6 (PyInt 2))]).
  - repeat constructor; simpl; intuition discriminate.
  - apply perm_swap.
  - reflexivity.
  - reflexivity.
Defined.

Lemma collect_row_new_keys (row : TableRow) (years : list string) :
  NoDup years ->
  (forall y, In y years -> PyStr.isdigit (cell_text row y) = true) ->
  forall per per',
    (forall y, In y years -> ~ In y (dict_keys per)) ->
    collect_row row years per = Ok per' ->
    dict_keys per' = dict_keys per ++ years.
Proof.
  induction 1 as [|y0 years Hni Hnd IH]; intros Hdig per per' Hfresh Hc;
    simpl in Hc.
  - injection Hc as <-. now rewrite app_nil_r.
  - rewrite (Hdig y0 (or_introl eq_refl)) in Hc.
    destruct (PyStr.int (cell_text row y0)) as [n|e]; simpl in Hc; [|discriminate].
    assert (Hk : dict_keys (append_value per y0 n) = dict_keys per ++ [y0]).
    { unfold append_value. rewrite dict_keys_upsert.
      destruct (dict_lookup String.eqb per y0) eqn:E; [|reflexivity].
      exfalso. apply (Hfresh y0 (or_introl eq_refl)).
      apply (dict_lookup_in String.eqb String.eqb_spec) in E.
      now apply (in_map fst) in E. }
    assert (Hfresh' : forall y, In y years ->
                                ~ In y (dict_keys (append_value per y0 n))).
    { intros y Hy Hin. rewrite Hk in Hin.
      apply in_app_or in Hin as [Hin|[<-|[]]]; [|contradiction].
      apply (Hfresh y (or_intror Hy) Hin). }
    rewrite (IH (fun y Hy => Hdig y (or_intror Hy)) _ _ Hfresh' Hc), Hk.
    now rewrite <- app_assoc.
Qed.

Lemma collect_row_old_keys (row : TableRow) (years : list string) :
  forall per per',
    (forall y, In y years -> In y (dict_keys per)) ->
    collect_row row years per = Ok per' ->
    dict_keys per' = dict_keys per.
Proof.
  induction years as [|y0 years IH]; intros per per' Hold Hc; simpl in Hc.
  - now injection Hc as <-.
  - assert (Hrest : forall y, In y years -> In y (dict_keys per))
      by (intros y Hy; apply Hold; now right).
    destruct (PyStr.isdigit (cell_text row y0)); [|now apply IH].
    destruct (PyStr.int (cell_text row y0)) as [n|e]; simpl in Hc; [|discriminate].
    assert (Hk : dict_keys (append_value per y0 n) = dict_keys per).
    { unfold append_value. rewrite dict_keys_upsert.
      destruct (dict_lookup String.eqb per y0) eqn:E; [reflexivity|].
      apply (dict_lookup_none String.eqb String.eqb_spec) in E.
      exfalso. apply E, Hold. now left. }
    rewrite (IH _ _ (fun y Hy => eq_ind_r (fun k => In y k) (Hrest y Hy) Hk) Hc).
    exact Hk.
Qed.

Lemma collect_rows_old_keys (years : list string) :
  forall rows per per',
    (forall y, In y years -> In y (dict_keys per)) ->
    collect_rows rows years per = Ok per' ->
    dict_keys per' = dict_keys per.
Proof.
  induction rows as [|row rows IH]; intros per per' Hold Hc; simpl in Hc.
  - now injection Hc as <-.
  - destruct (collect_row row years per) as [per1|e] eqn:H1; simpl in Hc;
      [|discriminate].
    pose proof (collect_row_old_keys _ _ _ _ Hold H1) as Hk.
    rewrite (IH _ _ (fun y Hy => eq_ind_r (fun k => In y k) (Hold y Hy) Hk) Hc).
    exact Hk.
Qed.

(** X12. When the first row has a digit value in each of its numeric
    columns, the years of the summary are those columns in the order of
    the header, which is then the order of the records of the CSV
    writer. *)
Theorem summary_keys_header_order
    (row0 : TableRow) (rest : list TableRow) (summary : YearlySummary) :
  dict_wf row0 ->
  (forall y, In y (numeric_columns row0) ->
             PyStr.isdigit (cell_text row0 y) = true) ->
  process_airtravel (row0 :: rest) = Ok summary ->
  dict_keys summary = numeric_columns row0
  /\ first_column (write_csv_yearly_totals summary)
     = map CStr (numeric_columns row0).
Proof.
  intros Hwf Hdig H.
  destruct (collect_rows_result _ _ _ H) as (per & Hc & _ & _ & Hk).
  assert (Hkeys : dict_keys summary = numeric_columns row0).
  { rewrite Hk. cbn [collect_rows] in Hc.
    destruct (collect_row row0 (numeric_columns row0) []) as [per1|e] eqn:H1;
      cbn [bind] in Hc; [|discriminate].
    assert (Hnd : NoDup (numeric_columns row0)) by (apply NoDup_filter; exact Hwf).
    pose proof (collect_row_new_keys row0 _ Hnd Hdig [] per1
                  (fun y _ Hin => Hin) H1) as Hk1.
    simpl in Hk1.
    rewrite (collect_rows_old_keys _ _ _ _
               (fun y Hy => eq_ind_r (fun k => In y k) Hy Hk1) Hc).
    exact Hk1. }
  split; [assumption|].
  rewrite <- Hkeys. unfold first_column, write_csv_yearly_totals, dict_keys.
  cbn [tl]. rewrite !map_map. reflexivity.
Qed.

(** X12, on two rows with two numeric columns. *)
Lemma summary_keys_header_order_witness :
  dict_keys [ ("1958", mkStats 2 658 (PyInt 329));
              ("1959", mkStats 2 702 (PyInt 351)) ]
  = numeric_columns [("Month", "JAN"); ("1958", "340"); ("1959", "360")]
  /\ first_column
       (write_csv_yearly_totals
          [ ("1958", mkStats 2 658 (PyInt 329));
            ("1959", mkStats 2 702 (PyInt 351)) ])
     = map CStr (numeric_columns
                   [("Month", "JAN"); ("1958", "340"); ("1959", "360")]).
Proof.
  apply (summary_keys_header_order
           [("Month", "JAN"); ("1958", "340"); ("1959", "360")]
           [[("Month", "FEB"); ("1958", "318"); ("1959", "342")]]).
  - repeat constructor; simpl; intuition discriminate.
  - intros y [<-|[<-|[]]]; reflexivity.
  - reflexivity.
Defined.

(** ** The tabular aggregator: when a summary is returned *)











(** ** The writers of the tabular summary, further *)

Lemma precedes_map_inv {A B : Type} (f : A -> B) (l : list A) (x y : B) :
  precedes (map f l) x y ->
  exists a b, f a = x /\ f b = y /\ precedes l a b.
Proof.
  intros (m1 & m2 & m3 & E).
  apply map_eq_app in E as (l1 & r1 & -> & <- & E).
  apply map_eq_cons in E as (a & r2 & -> & <- & E).
  apply map_eq_app in E as (l2 & r3 & -> & <- & E).
  apply map_eq_cons in E as (b & l3 & -> & <- & <-).
  exists a, b. repeat split. now exists l1, l2, l3.
Qed.

Lemma StronglySorted_map {A B : Type} (R : B -> B -> Prop) (f : A -> B)
    (l : list A) :
  StronglySorted (fun a b => R (f a) (f b)) l -> StronglySorted R (map f l).
Proof.
  induction 1 as [|x l Hs IH Hx]; simpl; constructor; [assumption|].
  rewrite Forall_forall in *. intros y Hy.
  apply in_map_iff in Hy as (a & <- & Ha). now apply Hx.
Qed.

Lemma string_ltb_of_leb (a b : string) :
  String.leb a b = true -> a <> b -> String.ltb a b = true.
Proof.
  unfold String.leb, String.ltb. intros Hle Hne.
  destruct (String.compare a b) eqn:E; try reflexivity; try discriminate.
  apply String.compare_eq_iff in E. contradiction.
Qed.

Lemma StronglySorted_strict (l : list string) :
  StronglySorted (fun a b => String.leb a b = true) l -> NoDup l ->
  StronglySorted (fun a b => String.ltb a b = true) l.
Proof.
  induction 1 as [|x l Hs IH Hx]; intros Hnd; constructor.
  - apply IH. now inversion Hnd.
  - inversion Hnd as [|? ? Hni _]; subst.
    rewrite Forall_forall in *. intros y Hy.
    apply string_ltb_of_leb; [now apply Hx | intros ->; contradiction].
Qed.

Lemma sorted_of_sorted {A : Type} (le : A -> A -> bool) (l : list A) :
  StronglySorted (fun a b => le a b = true) l -> sorted le l = l.
Proof.
  induction 1 as [|x l Hs IH Hx]; simpl; [reflexivity|].
  rewrite IH. destruct l as [|y l]; [reflexivity|].
  simpl. apply Forall_inv in Hx. now rewrite Hx.
Qed.

(** X14. For a summary that is a dict, the years in the first column of
    the sheet [AirTravel Summary] are the keys of the summary in strictly
    ascending order under string comparison. *)
Theorem write_excel_years_ascending (summary : YearlySummary) :
  dict_wf summary ->
  exists years,
    first_column (sheet_rows (nth 0 (write_excel summary) (mkSheet EmptyString [])))
    = map CStr years
    /\ StronglySorted (fun a b => String.ltb a b = true) years
    /\ Permutation years (dict_keys summary).
Proof.
  intros Hwf. exists (map fst (items_by_year summary)).
  assert (Hperm : Permutation (map fst (items_by_year summary)) (dict_keys summary))
    by (apply Permutation_map, sorted_perm).
  repeat split.
  - unfold first_column. cbn [write_excel nth sheet_rows tl].
    rewrite !map_map. reflexivity.
  - apply StronglySorted_strict.
    + apply StronglySorted_map.
      apply (sorted_sorted (fun a b => String.leb (fst a) (fst b))).
      * intros a b. apply string_leb_total.
      * intros a b c. apply string_leb_trans.
    + apply (Permutation_NoDup (Permutation_sym Hperm)). exact Hwf.
  - exact Hperm.
Qed.

(** X14, on a summary of two years given in descending order. *)
Lemma write_excel_years_ascending_witness :
  exists years,
    first_column
      (sheet_rows
         (nth 0 (write_excel [ ("1959", mkStats 1 5 (PyInt 5));
                               ("1958", mkStats 1 7 (PyInt 7)) ])
            (mkSheet EmptyString [])))
    = map CStr years
    /\ StronglySorted (fun a b => String.ltb a b = true) years
    /\ Permutation years
         (dict_keys [ ("1959", mkStats 1 5 (PyInt 5));
                      ("1958", mkStats 1 7 (PyInt 7)) ]).
Proof.
  apply (write_excel_years_ascending
           [ ("1959", mkStats 1 5 (PyInt 5)); ("1958", mkStats 1 7 (PyInt 7)) ]).
  repeat constructor; simpl; intuition discriminate.
Defined.

(** X15. The ranking sheet is stable: of two rows of [Totals Ranking] with
    the same total, the upper one is the one whose year comes first in the
    summary. *)
Theorem write_excel_ranking_stable (summary : YearlySummary)
    (y1 y2 : string) (t : Z) :
  precedes
    (tl (sheet_rows (nth 1 (write_excel summary) (mkSheet EmptyString []))))
    [CStr y1; CNum (PyInt t)] [CStr y2; CNum (PyInt t)] ->
  precedes (dict_keys summary) y1 y2.
Proof.
  cbn [write_excel nth sheet_rows tl]. intros H.
  apply precedes_map_inv in H as (a & b & Ha & Hb & H).
  unfold ranking_sheet_row in Ha, Hb.
  injection Ha as Ha1 Ha2. injection Hb as Hb1 Hb2. subst y1 y2.
  apply (precedes_map fst). apply sorted_stable in H; [assumption|].
  apply Z.leb_le. lia.
Qed.

(** X15, on two years with the same total. *)
Lemma write_excel_ranking_stable_witness :
  precedes
    (dict_keys [ ("1959", mkStats 1 7 (PyInt 7));
                 ("1958", mkStats 1 7 (PyInt 7)) ])
    "1959" "1958".
Proof.
  apply (write_excel_ranking_stable
           [ ("1959", mkStats 1 7 (PyInt 7)); ("1958", mkStats 1 7 (PyInt 7)) ]
           "1959" "1958" 7).
  exists [], [], []. reflexivity.
Defined.

Lemma summary_sheet_row_record (item : string * stats) :
  summary_sheet_row item
  = DictWriter_record csv_fieldnames (year_row (fst item) (snd item)).
Proof. reflexivity. Qed.

(** X16. The CSV file and the sheet [AirTravel Summary] hold the same
    records after their headers, up to order; when the years of the
    summary are already ascending they hold them in the same order. *)
Theorem csv_and_sheet_records (summary : YearlySummary) :
  let sheet_records :=
    tl (sheet_rows (nth 0 (write_excel summary) (mkSheet EmptyString []))) in
  let csv_records := tl (write_csv_yearly_totals summary) in
  Permutation sheet_records csv_records
  /\ (StronglySorted (fun a b => String.leb a b = true) (dict_keys summary) ->
      sheet_records = csv_records).
Proof.
  cbn zeta. cbn [write_excel nth sheet_rows tl write_csv_yearly_totals].
  rewrite (map_ext _ _ summary_sheet_row_record). split.
  - apply Permutation_map, sorted_perm.
  - intros Hs. unfold items_by_year. rewrite sorted_of_sorted; [reflexivity|].
    clear -Hs. unfold dict_keys in Hs.
    induction summary as [|x l IH]; [constructor|].
    simpl in Hs. apply StronglySorted_inv in Hs as [Hs Hx].
    constructor; [now apply IH|].
    rewrite Forall_forall in *. intros y Hy. apply Hx. now apply in_map.
Qed.

(** X17. The CSV writer loses nothing: two summaries for which it writes
    the same records are equal, items and order. *)
Theorem write_csv_injective (s s' : YearlySummary) :
  write_csv_yearly_totals s = write_csv_yearly_totals s' -> s = s'.
Proof.
  unfold write_csv_yearly_totals. intros H. injection H as H.
  revert s' H. induction s as [|[y st] s IH]; intros [|[y' st'] s'] H;
    try discriminate; [reflexivity|].
  cbn [map] in H.
  pose proof (f_equal (hd []) H) as Hrow.
  pose proof (f_equal (@tl _) H) as Hrest. cbn [hd tl] in Hrow, Hrest.
  f_equal; [|now apply IH].
  destruct st, st'. vm_compute in Hrow. congruence.
Qed.

(** X17, on a summary of one year. *)
Lemma write_csv_injective_witness :
  [("1958", mkStats 2 658 (PyInt 329))] = [("1958", mkStats 2 658 (PyInt 329))].
Proof.
  apply (write_csv_injective
           [("1958", mkStats 2 658 (PyInt 329))]
           [("1958", mkStats 2 658 (PyInt 329))]).
  reflexivity.
Defined.

(** X7. For a dict as first row and a run that raises nothing, every entry
    of the summary holds the number of rows whose trimmed value in that
    column is a decimal literal, the sum of those values, and the mean
    rounded by [round(., 2)] of that sum over that number; and a numeric
    column is a key of the summary exactly when some row has such a
    value. *)
Theorem summary_entries
    (row0 : TableRow) (rest : list TableRow) (summary : YearlySummary) :
  dict_wf row0 ->
  process_airtravel (row0 :: rest) = Ok summary ->
  (forall y st, In (y, st) summary ->
     months_counted st = len (decimal_rows (row0 :: rest) y)
     /\ total_passengers st = PyNum.sum (decimal_values (row0 :: rest) y)
     /\ (m <- quotient (total_passengers st) (months_counted st) ;; round2 m)
        = Ok (avg_per_month st))
  /\ (forall y, In y (numeric_columns row0) ->
        (In y (dict_keys summary) <-> decimal_rows (row0 :: rest) y <> [])).
Proof.
  intros Hwf H.
  destruct (collect_rows_result _ _ _ H) as (per & Hc & Hs & Hper & Hk).
  assert (Hsum : dict_wf summary) by (unfold dict_wf; now rewrite Hk).
  assert (Hlen : forall y, len (decimal_rows (row0 :: rest) y) = 0
                           <-> decimal_rows (row0 :: rest) y = []).
  { intros y. unfold len. destruct (decimal_rows (row0 :: rest) y); simpl.
    - tauto.
    - split; [lia | discriminate]. }
  split.
  - intros y st Hin.
    assert (Hy : In y (numeric_columns row0)).
    { apply (summary_key_is_column row0 rest summary); [assumption|].
      now apply (in_map fst) in Hin. }
    apply (dict_in_lookup String.eqb String.eqb_spec _ _ _ Hsum) in Hin.
    destruct (process_airtravel_column row0 rest summary y Hwf H Hy) as [Hzero Hpos].
    cbv zeta in Hzero, Hpos.
    destruct (Z.eq_dec (len (decimal_rows (row0 :: rest) y)) 0) as [E|Hne].
    + rewrite (Hzero E) in Hin. discriminate.
    + destruct (Hpos Hne) as (avg & Hl & Ha). rewrite Hl in Hin.
      injection Hin as <-. cbn [months_counted total_passengers avg_per_month].
      auto.
  - intros y Hy.
    destruct (process_airtravel_column row0 rest summary y Hwf H Hy) as [Hzero Hpos].
    cbv zeta in Hzero, Hpos. rewrite <- Hlen. split.
    + intros Hin E. apply (dict_lookup_none String.eqb String.eqb_spec) in Hin;
        [assumption | now apply Hzero].
    + intros Hne. destruct (Hpos Hne) as (avg & Hl & _).
      apply (dict_lookup_in String.eqb String.eqb_spec) in Hl.
      now apply (in_map fst) in Hl.
Qed.

(** X7, on two rows in which only column 1958 holds numbers. *)
Lemma summary_entries_witness :
  let rows := [ [("Month", "JAN"); ("1958", "340"); ("1959", "x")];
                [("Month", "FEB"); ("1958", "318"); ("1959", "y")] ] in
  let summary := [("1958", mkStats 2 658 (PyInt 329))] in
  (forall y st, In (y, st) summary ->
     months_counted st = len (decimal_rows rows y)
     /\ total_passengers st = PyNum.sum (decimal_values rows y)
     /\ (m <- quotient (total_passengers st) (months_counted st) ;; round2 m)
        = Ok (avg_per_month st))
  /\ (forall y,
        In y (numeric_columns [("Month", "JAN"); ("1958", "340"); ("1959", "x")]) ->
        (In y (dict_keys summary) <-> decimal_rows rows y <> [])).
Proof.
  apply (summary_entries
           [("Month", "JAN"); ("1958", "340"); ("1959", "x")]
           [[("Month", "FEB"); ("1958", "318"); ("1959", "y")]]
           [("1958", mkStats 2 658 (PyInt 329))]).
  - repeat constructor; simpl; intuition discriminate.
  - reflexivity.
Defined.

(** ** The JSON writer, further *)

(** X18. For every value whose strs and keys need no escape and whose
    dicts have keys with distinct names, the text of [write_json] decodes,
    and it decodes to the value with each dict key replaced by the str
    that names it. *)
Theorem write_json_decodes (v : value) :
  plain_value v -> loads (write_json v) = Some (image v).
Proof. intros H. unfold write_json. now apply loads_dumps. Qed.

(** X18, on a dict with an int key and a nested list. *)
Lemma write_json_decodes_witness :
  loads (write_json (VDict [(KInt 1, VList [VStr "a"; VNone; VInt (-3)])]))
  = Some (image (VDict [(KInt 1, VList [VStr "a"; VNone; VInt (-3)])])).
Proof.
  apply (write_json_decodes (VDict [(KInt 1, VList [VStr "a"; VNone; VInt (-3)])])).
  simpl. repeat split. repeat constructor. simpl. tauto.
Defined.

Lemma image_str_keys_bound (bound : nat) :
  forall v, (calls v <= bound)%nat -> str_keys v -> image v = v.
Proof.
  induction bound as [|bound IH]; intros v Hv Hs;
    [destruct v; simpl in Hv; lia|].
  destruct v as [|z|s|l|d]; try reflexivity.
  - cbn [image]. f_equal. cbn [calls str_keys] in Hv, Hs.
    apply le_S_n in Hv.
    induction l as [|x l IHl]; [reflexivity|].
    cbn [fold_right map] in *. destruct Hs as [Hx Hl].
    rewrite (IH x) by (assumption || lia). f_equal. apply IHl; [lia | assumption].
  - cbn [image]. f_equal. cbn [calls str_keys] in Hv, Hs.
    apply le_S_n in Hv.
    induction d as [|[k x] d IHd]; [reflexivity|].
    cbn [fold_right map] in *. destruct k as [|z|s]; try contradiction.
    destruct Hs as [Hx Hd]. cbn [key_name].
    rewrite (IH x) by (assumption || lia). f_equal. apply IHd; [lia | assumption].
Qed.

(** X19. A value all of whose dict keys are strs is read back as it was:
    under the conditions of X18, decoding the text of [write_json] gives
    the value itself. *)
Theorem write_json_str_keys_round_trip (v : value) :
  plain_value v -> str_keys v -> loads (write_json v) = Some v.
Proof.
  intros Hp Hs. unfold write_json. rewrite (loads_dumps v Hp). f_equal.
  now apply (image_str_keys_bound (calls v)).
Qed.

(** X19, on the summary of no posts. *)
Lemma write_json_str_keys_round_trip_witness :
  loads (write_json (summary_value (process_posts [])))
  = Some (summary_value (process_posts [])).
Proof.
  apply (write_json_str_keys_round_trip (summary_value (process_posts []))).
  - simpl. repeat split; try reflexivity; repeat constructor;
      simpl; intuition discriminate.
  - simpl. tauto.
Defined.

(** ** The text report writer *)

Lemma split_on_one_line (s : string) :
  one_line s = true -> split_on newline s = [s].
Proof.
  unfold one_line. induction s as [|c s IH]; [reflexivity|].
  cbn [PyStr.forallb_str split_on]. intros H.
  apply andb_true_iff in H as [Hc Hs]. apply negb_true_iff in Hc.
  now rewrite Hc, (IH Hs).
Qed.

Lemma split_on_line (s rest : string) :
  one_line s = true ->
  split_on newline (String.append s (String newline rest))
  = s :: split_on newline rest.
Proof.
  unfold one_line. induction s as [|c s IH]; intros H.
  - reflexivity.
  - cbn [PyStr.forallb_str] in H. apply andb_true_iff in H as [Hc Hs].
    apply negb_true_iff in Hc.
    cbn [String.append split_on]. now rewrite Hc, (IH Hs).
Qed.

(** Splitting joined lines gives the lines back. *)
Lemma split_on_join (x : string) (lines : list string) :
  Forall (fun l => one_line l = true) (x :: lines) ->
  split_on newline (String.concat (String newline EmptyString) (x :: lines))
  = x :: lines.
Proof.
  revert x. induction lines as [|y lines IH]; intros x H.
  - apply split_on_one_line. now apply Forall_inv in H.
  - rewrite concat_cons2. cbn [String.append].
    rewrite split_on_line by (now apply Forall_inv in H).
    f_equal. apply IH. now apply Forall_inv_tail in H.
Qed.

Lemma one_line_append (a b : string) :
  one_line (String.append a b) = one_line a && one_line b.
Proof. apply forallb_str_append. Qed.

Lemma plain_one_line (s : string) : plain s = true -> one_line s = true.
Proof.
  unfold plain, one_line. apply forallb_str_impl.
  intros c. destruct c as [[] [] [] [] [] [] [] []]; vm_compute; intros H;
    try discriminate H; reflexivity.
Qed.

Lemma str_repeat_one_line (c : ascii) (n : nat) :
  (c =? newline)%char = false -> one_line (str_repeat c n) = true.
Proof.
  intros Hc. unfold one_line.
  induction n as [|n IH]; simpl; [reflexivity | now rewrite Hc, IH].
Qed.

Lemma top_word_line_one_line (wc : string * Z) :
  plain (fst wc) = true -> one_line (top_word_line wc) = true.
Proof.
  intros Hw. unfold top_word_line, ljust.
  rewrite !one_line_append, (plain_one_line _ Hw),
    (plain_one_line _ (repr_int_plain (snd wc))).
  now rewrite str_repeat_one_line.
Qed.

(** X20. When the source name and the time stamp hold no line break, the
    report of the text metrics splits at its line breaks into exactly the
    lines built by the writer: seven header lines, then one line per top
    word; no word adds a line break. *)
Theorem write_text_report_lines (text source_name now : string) :
  one_line source_name = true -> one_line now = true ->
  let metrics := process_text_report text in
  split_on newline (write_text_report metrics source_name now)
  = report_lines metrics source_name now
  /\ List.length (report_lines metrics source_name now)
     = (7 + List.length (text_top_words metrics))%nat.
Proof.
  intros Hsrc Hnow metrics. split.
  - unfold write_text_report, report_lines. cbn [app].
    apply split_on_join.
    repeat (apply Forall_cons);
      try (rewrite one_line_append; cbn;
           first [ now rewrite Hsrc | now rewrite Hnow
                 | apply plain_one_line, repr_int_plain ]);
      try reflexivity.
    rewrite Forall_forall. intros l Hl.
    apply in_map_iff in Hl as (wc & <- & Hin).
    apply top_word_line_one_line.
    destruct wc as [w c].
    apply (proj1 (most_common_counts 20 _)) in Hin as (Hw & _ & _).
    apply filter_In in Hw as [Hw _].
    pose proof (tokenize_plain text) as Hall. rewrite Forall_forall in Hall.
    now apply Hall.
  - unfold report_lines. rewrite length_app, length_map. reflexivity.
Qed.

(** X20, on a short text. *)
Lemma write_text_report_lines_witness :
  let metrics := process_text_report "aa bb ccc dddd eeeee eeeee" in
  split_on newline (write_text_report metrics "README" "2024-01-01T00:00:00")
  = report_lines metrics "README" "2024-01-01T00:00:00"
  /\ List.length (report_lines metrics "README" "2024-01-01T00:00:00")
     = (7 + List.length (text_top_words metrics))%nat.
Proof.
  apply (write_text_report_lines "aa bb ccc dddd eeeee eeeee"
           "README" "2024-01-01T00:00:00"); reflexivity.
Defined.
